(** * node-systray: the controller of the tray renderer (src/index.ts)

    A shallow embedding of [src/index.ts]: the checked-marker rule
    [updateCheckedInLinux], and the [SysTray] class with its line handlers,
    [writeLine], [sendAction], [kill] and the [killed] getter.

    JavaScript strings are sequences of UTF-16 code units, objects are
    held by reference in a store, and a method either returns a value or
    throws, the store keeping what was done before the throw.

    What the file uses of the language and of Node is modelled beside it:
    [trim], [replace] and [RegExp], [JSON.parse] and [JSON.stringify], the
    ['line'] events of the readline interface, the child process object
    with its [kill], [killed] and ['exit'] event, and the logger of the
    debug package. *)

From Stdlib Require Import NArith ZArith List Bool Lia Ascii String.
From stdpp Require Import base gmap list.

Local Open Scope N_scope.

(** ** Strings *)

(** A JavaScript string: its UTF-16 code units. *)
Definition jsstring := list N.

(** An ASCII literal as a JavaScript string. *)
Fixpoint lit (s : String.string) : jsstring :=
  match s with
  | String.EmptyString => []
  | String.String c r => Ascii.N_of_ascii c :: lit r
  end.

(** A literal in which the apostrophe stands for the double quote. *)
Definition qlit (s : String.string) : jsstring :=
  map (fun c => if c =? 39 then 34 else c) (lit s).

(** ['\n'] *)
Definition lit_newline : jsstring := [10].

Definition jsstring_eqb (a b : jsstring) : bool :=
  bool_decide (a = b).

(** [String.prototype.trim]: the code units of WhiteSpace and
    LineTerminator. *)
Definition is_js_space (c : N) : bool :=
  (c =? 9) || (c =? 10) || (c =? 11) || (c =? 12) || (c =? 13) || (c =? 32)
  || (c =? 160) || (c =? 5760) || ((8192 <=? c) && (c <=? 8202))
  || (c =? 8232) || (c =? 8233) || (c =? 8239) || (c =? 8287)
  || (c =? 12288) || (c =? 65279).

Fixpoint trim_start (s : jsstring) : jsstring :=
  match s with
  | c :: r => if is_js_space c then trim_start r else s
  | [] => []
  end.

Definition trim (s : jsstring) : jsstring :=
  rev (trim_start (rev (trim_start s))).

(** ** Regular expressions

    The fragment of the pattern language that [RegExp(CHECK_STR + '$')]
    uses: literal characters, parenthesised groups and the end assertion.
    No flag is given, so [$] holds at the end of the input only and the
    pattern is matched code unit by code unit. *)

Inductive regex : Type :=
| REmpty
| RChar (c : N)
| RGroup (r : regex)
| RSeq (a b : regex)
| REnd.

(** The syntax characters [^ \ . * + ? [ ] { } |], none of which the
    fragment gives a meaning to. *)
Definition is_other_syntax_char (c : N) : bool :=
  (c =? 94) || (c =? 92) || (c =? 46) || (c =? 42) || (c =? 43) || (c =? 63)
  || (c =? 91) || (c =? 93) || (c =? 123) || (c =? 125) || (c =? 124).

(** Pattern parsing, with the stack of the groups that are open: [cur] is
    the alternative read so far at the current depth. *)
Fixpoint parse_pattern (src : jsstring) (cur : regex) (open : list regex)
  : option regex :=
  match src with
  | [] => match open with [] => Some cur | _ :: _ => None end
  | c :: rest =>
      if c =? 40 then parse_pattern rest REmpty (cur :: open)
      else if c =? 41 then
        match open with
        | outer :: open' => parse_pattern rest (RSeq outer (RGroup cur)) open'
        | [] => None
        end
      else if c =? 36 then parse_pattern rest (RSeq cur REnd) open
      else if is_other_syntax_char c then None
      else parse_pattern rest (RSeq cur (RChar c)) open
  end.

(** [RegExp(source)]; [None] is a pattern that does not compile, or one
    outside the fragment. *)
Definition RegExp (source : jsstring) : option regex :=
  parse_pattern source REmpty [].

(** Matching at the start of [s]: what is left of [s] after the match. *)
Fixpoint rmatch (r : regex) (s : jsstring) : option jsstring :=
  match r with
  | REmpty => Some s
  | RChar c =>
      match s with
      | x :: t => if x =? c then Some t else None
      | [] => None
      end
  | RGroup g => rmatch g s
  | RSeq a b =>
      match rmatch a s with
      | Some t => rmatch b t
      | None => None
      end
  | REnd => match s with [] => Some [] | _ :: _ => None end
  end.

(** [s.replace(re, repl)] for a [re] without the global flag and a [repl]
    without [$] patterns: the leftmost match is replaced, and [s] is
    returned as it is when there is none. *)
Fixpoint replace (re : regex) (s repl : jsstring) : jsstring :=
  match rmatch re s with
  | Some rest => repl ++ rest
  | None =>
      match s with
      | [] => []
      | c :: t => c :: replace re t repl
      end
  end.

(** ** The data model *)

Record MenuItem := mkMenuItem {
  title : jsstring;
  tooltip : jsstring;
  checked : bool;
  enabled : bool;
}.

(** A reference to an object of the store. *)
Definition ref := positive.

(** A [Menu] object; its [items] array holds references to the items. *)
Record Menu := mkMenu {
  icon : jsstring;
  menu_title : jsstring;
  menu_tooltip : jsstring;
  menu_items : list ref;
}.

(** [seq_id] is a [number]; the model has the integral ones. *)
Inductive Action :=
| UpdateItem (item : ref) (seq_id : Z)
| UpdateMenu (menu : ref) (seq_id : Z)
| UpdateMenuAndItem (menu : ref) (item : ref) (seq_id : Z).

Inductive Platform := linux | darwin | win32 | other_platform.

Definition is_linux (p : Platform) : bool :=
  match p with linux => true | _ => false end.

Definition with_title (it : MenuItem) (t : jsstring) : MenuItem :=
  {| title := t; tooltip := tooltip it; checked := checked it;
     enabled := enabled it |}.

(** [const CHECK_STR = ' (√)'] *)
Definition CHECK_STR : jsstring := lit " (" ++ [8730] ++ lit ")".

(** [x || ''] on a string. *)
Definition or_empty (s : jsstring) : jsstring :=
  match s with [] => [] | _ :: _ => s end.

(** ** JSON values and [JSON.parse]

    A parsed number keeps the text it was written with. *)

#[warnings="-register-all"]
Inductive json : Type :=
| JNull
| JBool (b : bool)
| JNumber (lexeme : jsstring)
| JString (s : jsstring)
| JArray (elems : list json)
| JObject (members : list (jsstring * json)).

Inductive token : Type :=
| TLBrace | TRBrace | TLBracket | TRBracket | TColon | TComma
| TString (s : jsstring)
| TNumber (lexeme : jsstring)
| TTrue | TFalse | TNull.

(** Where the scanner is inside a number: an optional minus sign, then 0
    or a digit from 1 to 9 followed by digits, then optionally a dot and
    digits, then optionally e or E, an optional sign and digits. *)
Inductive numstate : Type :=
| NMinus | NZero | NInt | NDot | NFrac | NExp | NExpSign | NExpDigits.

Inductive lexstate : Type :=
| LStart
| LStr (acc : jsstring)
| LEsc (acc : jsstring)
| LUni (acc : jsstring) (k : nat) (v : N)
| LNum (ns : numstate) (acc : jsstring)
| LLit (rest : jsstring) (t : token).

Definition is_digit (c : N) : bool := (48 <=? c) && (c <=? 57).

Definition hex_value (c : N) : option N :=
  if is_digit c then Some (c - 48)
  else if (97 <=? c) && (c <=? 102) then Some (c - 87)
  else if (65 <=? c) && (c <=? 70) then Some (c - 55)
  else None.

Definition is_json_space (c : N) : bool :=
  (c =? 32) || (c =? 9) || (c =? 10) || (c =? 13).

(** A code unit read between two tokens. *)
Definition lex_start (c : N) : option (list token * lexstate) :=
  if is_json_space c then Some ([], LStart)
  else if c =? 123 then Some ([TLBrace], LStart)
  else if c =? 125 then Some ([TRBrace], LStart)
  else if c =? 91 then Some ([TLBracket], LStart)
  else if c =? 93 then Some ([TRBracket], LStart)
  else if c =? 58 then Some ([TColon], LStart)
  else if c =? 44 then Some ([TComma], LStart)
  else if c =? 34 then Some ([], LStr [])
  else if c =? 45 then Some ([], LNum NMinus [c])
  else if c =? 48 then Some ([], LNum NZero [c])
  else if is_digit c then Some ([], LNum NInt [c])
  else if c =? 116 then Some ([], LLit (lit "rue") TTrue)
  else if c =? 102 then Some ([], LLit (lit "alse") TFalse)
  else if c =? 110 then Some ([], LLit (lit "ull") TNull)
  else None.

Definition is_exp_mark (c : N) : bool := (c =? 101) || (c =? 69).

(** The number goes on with [c] ([Some] of the next state), or [c] cannot
    follow ([None]). *)
Definition num_next (ns : numstate) (c : N) : option numstate :=
  match ns with
  | NMinus => if c =? 48 then Some NZero
              else if is_digit c then Some NInt else None
  | NZero => if c =? 46 then Some NDot
             else if is_exp_mark c then Some NExp else None
  | NInt => if is_digit c then Some NInt
            else if c =? 46 then Some NDot
            else if is_exp_mark c then Some NExp else None
  | NDot => if is_digit c then Some NFrac else None
  | NFrac => if is_digit c then Some NFrac
             else if is_exp_mark c then Some NExp else None
  | NExp => if (c =? 43) || (c =? 45) then Some NExpSign
            else if is_digit c then Some NExpDigits else None
  | NExpSign => if is_digit c then Some NExpDigits else None
  | NExpDigits => if is_digit c then Some NExpDigits else None
  end.

(** The states in which a number may end. *)
Definition num_complete (ns : numstate) : bool :=
  match ns with
  | NZero | NInt | NFrac | NExpDigits => true
  | NMinus | NDot | NExp | NExpSign => false
  end.

Definition unescape (c : N) : option N :=
  if (c =? 34) || (c =? 92) || (c =? 47) then Some c
  else if c =? 98 then Some 8
  else if c =? 102 then Some 12
  else if c =? 110 then Some 10
  else if c =? 114 then Some 13
  else if c =? 116 then Some 9
  else None.

(** One code unit: the tokens it completes and the next state. The
    accumulators hold what was read in reverse. *)
Definition lex_step (st : lexstate) (c : N) : option (list token * lexstate) :=
  match st with
  | LStart => lex_start c
  | LStr acc =>
      if c =? 34 then Some ([TString (rev acc)], LStart)
      else if c =? 92 then Some ([], LEsc acc)
      else if c <? 32 then None
      else Some ([], LStr (c :: acc))
  | LEsc acc =>
      if c =? 117 then Some ([], LUni acc 0 0)
      else match unescape c with
           | Some u => Some ([], LStr (u :: acc))
           | None => None
           end
  | LUni acc k v =>
      match hex_value c with
      | Some d =>
          if (k =? 3)%nat then Some ([], LStr ((v * 16 + d) :: acc))
          else Some ([], LUni acc (S k) (v * 16 + d))
      | None => None
      end
  | LNum ns acc =>
      match num_next ns c with
      | Some ns' => Some ([], LNum ns' (c :: acc))
      | None =>
          if num_complete ns then
            match lex_start c with
            | Some (toks, st') => Some (TNumber (rev acc) :: toks, st')
            | None => None
            end
          else None
      end
  | LLit rest t =>
      match rest with
      | x :: [] => if c =? x then Some ([t], LStart) else None
      | x :: more => if c =? x then Some ([], LLit more t) else None
      | [] => None
      end
  end.

Definition lex_finish (st : lexstate) : option (list token) :=
  match st with
  | LStart => Some []
  | LNum ns acc => if num_complete ns then Some [TNumber (rev acc)] else None
  | _ => None
  end.

Fixpoint lex (st : lexstate) (s : jsstring) : option (list token) :=
  match s with
  | [] => lex_finish st
  | c :: r =>
      match lex_step st c with
      | Some (toks, st') =>
          match lex st' r with
          | Some more => Some (toks ++ more)
          | None => None
          end
      | None => None
      end
  end.

(** The containers that are open, innermost first; elements and members
    are held in reverse, and [key] is the key whose value is being read. *)
Inductive frame : Type :=
| FArray (elems : list json)
| FObject (members : list (jsstring * json)) (key : jsstring).

Inductive pmode : Type :=
| PValue | PValueOrClose | PKeyOrClose | PKey | PColon | PAfter
| PDone (v : json).

(** A value is complete: it goes into the innermost open container. *)
Definition complete (v : json) (stack : list frame) : list frame * pmode :=
  match stack with
  | [] => ([], PDone v)
  | FArray es :: up => (FArray (v :: es) :: up, PAfter)
  | FObject ms k :: up => (FObject ((k, v) :: ms) k :: up, PAfter)
  end.

Definition close_array (stack : list frame) : option (list frame * pmode) :=
  match stack with
  | FArray es :: up => Some (complete (JArray (rev es)) up)
  | _ => None
  end.

Definition close_object (stack : list frame) : option (list frame * pmode) :=
  match stack with
  | FObject ms _ :: up => Some (complete (JObject (rev ms)) up)
  | _ => None
  end.

Definition parse_value_token (t : token) (stack : list frame)
  : option (list frame * pmode) :=
  match t with
  | TLBrace => Some (FObject [] [] :: stack, PKeyOrClose)
  | TLBracket => Some (FArray [] :: stack, PValueOrClose)
  | TString s => Some (complete (JString s) stack)
  | TNumber l => Some (complete (JNumber l) stack)
  | TTrue => Some (complete (JBool true) stack)
  | TFalse => Some (complete (JBool false) stack)
  | TNull => Some (complete JNull stack)
  | _ => None
  end.

Definition parse_key_token (t : token) (stack : list frame)
  : option (list frame * pmode) :=
  match t, stack with
  | TString k, FObject ms _ :: up => Some (FObject ms k :: up, PColon)
  | _, _ => None
  end.

Definition parse_step (ps : list frame * pmode) (t : token)
  : option (list frame * pmode) :=
  let (stack, mode) := ps in
  match mode with
  | PValue => parse_value_token t stack
  | PValueOrClose =>
      match t with
      | TRBracket => close_array stack
      | _ => parse_value_token t stack
      end
  | PKey => parse_key_token t stack
  | PKeyOrClose =>
      match t with
      | TRBrace => close_object stack
      | _ => parse_key_token t stack
      end
  | PColon => match t with TColon => Some (stack, PValue) | _ => None end
  | PAfter =>
      match t, stack with
      | TComma, FArray _ :: _ => Some (stack, PValue)
      | TComma, FObject _ _ :: _ => Some (stack, PKey)
      | TRBracket, _ => close_array stack
      | TRBrace, _ => close_object stack
      | _, _ => None
      end
  | PDone _ => None
  end.

Fixpoint parse_tokens (ps : list frame * pmode) (ts : list token)
  : option json :=
  match ts with
  | [] => match ps with ([], PDone v) => Some v | _ => None end
  | t :: r =>
      match parse_step ps t with
      | Some ps' => parse_tokens ps' r
      | None => None
      end
  end.

(** [JSON.parse(text)]; [None] is the SyntaxError it throws. *)
Definition JSON_parse (text : jsstring) : option json :=
  match lex LStart text with
  | Some ts => parse_tokens ([], PValue) ts
  | None => None
  end.

(** The value of the property [k] of a parsed object (the last member
    with that key); [None] is [undefined]. *)
Fixpoint lookup_member (k : jsstring) (ms : list (jsstring * json))
  : option json :=
  match ms with
  | [] => None
  | (k', v) :: r =>
      match lookup_member k r with
      | Some w => Some w
      | None => if jsstring_eqb k k' then Some v else None
      end
  end.

(** ** [JSON.stringify] *)

Definition hex_digit (d : N) : N := if d <? 10 then 48 + d else 87 + d.

(** The escape sequence [\uXXXX] of a code unit, with lowercase digits. *)
Definition unicode_escape (c : N) : jsstring :=
  [92; 117; hex_digit (c / 4096 mod 16); hex_digit (c / 256 mod 16);
   hex_digit (c / 16 mod 16); hex_digit (c mod 16)].

Definition escape_unit (c : N) : jsstring :=
  if c =? 8 then [92; 98]
  else if c =? 9 then [92; 116]
  else if c =? 10 then [92; 110]
  else if c =? 12 then [92; 102]
  else if c =? 13 then [92; 114]
  else if c =? 34 then [92; 34]
  else if c =? 92 then [92; 92]
  else if c <? 32 then unicode_escape c
  else [c].

Definition is_high_surrogate (c : N) : bool := (55296 <=? c) && (c <=? 56319).
Definition is_low_surrogate (c : N) : bool := (56320 <=? c) && (c <=? 57343).

(** The text between the quotes: a surrogate that is not part of a pair
    is escaped, a pair is kept. *)
Fixpoint quote_units (s : jsstring) : jsstring :=
  match s with
  | [] => []
  | c :: r =>
      if is_high_surrogate c then
        match r with
        | d :: r' =>
            if is_low_surrogate d then c :: d :: quote_units r'
            else unicode_escape c ++ quote_units r
        | [] => unicode_escape c
        end
      else if is_low_surrogate c then unicode_escape c ++ quote_units r
      else escape_unit c ++ quote_units r
  end.

Definition quote (s : jsstring) : jsstring := [34] ++ quote_units s ++ [34].

Fixpoint uint_units (u : Decimal.uint) : jsstring :=
  match u with
  | Decimal.Nil => []
  | Decimal.D0 r => 48 :: uint_units r
  | Decimal.D1 r => 49 :: uint_units r
  | Decimal.D2 r => 50 :: uint_units r
  | Decimal.D3 r => 51 :: uint_units r
  | Decimal.D4 r => 52 :: uint_units r
  | Decimal.D5 r => 53 :: uint_units r
  | Decimal.D6 r => 54 :: uint_units r
  | Decimal.D7 r => 55 :: uint_units r
  | Decimal.D8 r => 56 :: uint_units r
  | Decimal.D9 r => 57 :: uint_units r
  end.

(** An integral number in decimal, as [JSON.stringify] writes the ones
    below 10^21 in absolute value. *)
Definition number_units (z : Z) : jsstring :=
  match Z.to_int z with
  | Decimal.Pos u => uint_units u
  | Decimal.Neg u => 45 :: uint_units u
  end.

Definition bool_units (b : bool) : jsstring :=
  if b then lit "true" else lit "false".

(** A property [key:text] of an object that is being written. *)
Definition member (key : String.string) (text : jsstring) : jsstring :=
  quote (lit key) ++ [58] ++ text.

Fixpoint join_comma (parts : list jsstring) : jsstring :=
  match parts with
  | [] => []
  | [x] => x
  | x :: r => x ++ [44] ++ join_comma r
  end.

Definition object_text (members : list jsstring) : jsstring :=
  [123] ++ join_comma members ++ [125].

Definition array_text (elems : list jsstring) : jsstring :=
  [91] ++ join_comma elems ++ [93].

Definition stringify_item (it : MenuItem) : jsstring :=
  object_text [member "title" (quote (title it));
               member "tooltip" (quote (tooltip it));
               member "checked" (bool_units (checked it));
               member "enabled" (bool_units (enabled it))].

(** ** The state of a session *)

(** The functions given to [onReady]: the one the constructor registers,
    which closes over the instance, and those of the application. *)
Inductive ReadyListener : Type :=
| Bootstrap (this : ref)
| AppReady (id : nat).

(** The listeners of the ['line'] event of [this._rl]: the logger of the
    constructor, and the arrow functions of [onReady] and [onClick] with
    the listener each one holds. *)
Inductive LineHandler : Type :=
| OnLine
| ReadyHandler (listener : ReadyListener)
| ClickHandler (listener : nat).

(** The listeners of the ['exit'] event of [this._process]: the one of
    [kill(true)], which calls [process.exit(0)], and those given to
    [onExit]. *)
Inductive ExitListener : Type :=
| ExitNode
| AppExit (id : nat).

(** The calls of [debug], in order. *)
Inductive LogEntry : Type :=
| LogOnLine (data : jsstring)
| LogOnReady (action : json)
| LogOnClick (action : json)
| LogWriteLine (text : jsstring)
| LogSendAction (action : Action).

(** The calls of the listeners of the application, in order. *)
Inductive AppCall : Type :=
| ReadyCalled (id : nat)
| ClickCalled (id : nat) (action : json)
| ExitCalled (id : nat).

(** The child process object: [running] is that it has its handle, which
    it gets when the child is spawned and loses when the child exits;
    [cp_killed] is its [killed] property; [stdin] is what was written to
    the input stream of the child. *)
Record ChildProcess := mkChildProcess {
  running : bool;
  cp_killed : bool;
  exit_listeners : list ExitListener;
  stdin : list jsstring;
}.

Record ReadLine := mkReadLine {
  line_listeners : list LineHandler;
  closed : bool;
}.

(** The store of the objects of the application, the fields of the
    instance, and what the session did to its host. A reference that the
    store does not hold is [null]. *)
Record State := mkState {
  items : gmap ref MenuItem;
  menus : gmap ref Menu;
  conf_menu : ref;
  _process : ChildProcess;
  _rl : ReadLine;
  debug_log : list LogEntry;
  app_calls : list AppCall;
  node_exited : bool;
}.

Definition set_items (f : gmap ref MenuItem -> gmap ref MenuItem) (st : State) :=
  mkState (f (items st)) (menus st) (conf_menu st) (_process st) (_rl st)
          (debug_log st) (app_calls st) (node_exited st).

Definition set_menus (f : gmap ref Menu -> gmap ref Menu) (st : State) :=
  mkState (items st) (f (menus st)) (conf_menu st) (_process st) (_rl st)
          (debug_log st) (app_calls st) (node_exited st).

Definition set_process (f : ChildProcess -> ChildProcess) (st : State) :=
  mkState (items st) (menus st) (conf_menu st) (f (_process st)) (_rl st)
          (debug_log st) (app_calls st) (node_exited st).

Definition set_rl (f : ReadLine -> ReadLine) (st : State) :=
  mkState (items st) (menus st) (conf_menu st) (_process st) (f (_rl st))
          (debug_log st) (app_calls st) (node_exited st).

Definition set_debug_log (f : list LogEntry -> list LogEntry) (st : State) :=
  mkState (items st) (menus st) (conf_menu st) (_process st) (_rl st)
          (f (debug_log st)) (app_calls st) (node_exited st).

Definition set_app_calls (f : list AppCall -> list AppCall) (st : State) :=
  mkState (items st) (menus st) (conf_menu st) (_process st) (_rl st)
          (debug_log st) (f (app_calls st)) (node_exited st).

Definition set_node_exited (b : bool) (st : State) :=
  mkState (items st) (menus st) (conf_menu st) (_process st) (_rl st)
          (debug_log st) (app_calls st) b.

(** ** Computations that may throw *)

Inductive Error : Type :=
| SyntaxError
| TypeError_not_a_function
| TypeError_property_of_null.

Inductive Result (A : Type) : Type :=
| Ok (a : A)
| Throw (e : Error).
Arguments Ok {A} a.
Arguments Throw {A} e.

Definition M (A : Type) : Type := State -> Result A * State.

Definition ret {A : Type} (a : A) : M A := fun st => (Ok a, st).

Definition throw {A : Type} (e : Error) : M A := fun st => (Throw e, st).

Definition bind {A B : Type} (c : M A) (k : A -> M B) : M B :=
  fun st =>
    match c st with
    | (Ok a, st') => k a st'
    | (Throw e, st') => (Throw e, st')
    end.

(** The state after a computation, however it ended. *)
Definition exec {A : Type} (c : M A) (st : State) : State := snd (c st).

Definition modify (f : State -> State) : M unit := fun st => (Ok tt, f st).

Declare Scope js_scope.
Delimit Scope js_scope with js.
Notation "'let*' x ':=' c 'in' k" := (bind c (fun x => k))
  (at level 10, x name, c at level 100, k at level 200) : js_scope.
Notation "c1 ';;;' c2" := (bind c1 (fun _ => c2))
  (at level 100, c2 at level 200, right associativity) : js_scope.
Local Open Scope js_scope.

Fixpoint mapM {A B : Type} (f : A -> M B) (l : list A) : M (list B) :=
  match l with
  | [] => ret []
  | x :: r =>
      let* y := f x in
      let* ys := mapM f r in
      ret (y :: ys)
  end.

(** Reading a property of the object [r] refers to; of [null] it throws. *)
Definition get_item (r : ref) : M MenuItem :=
  fun st =>
    match items st !! r with
    | Some it => (Ok it, st)
    | None => (Throw TypeError_property_of_null, st)
    end.

Definition get_menu (r : ref) : M Menu :=
  fun st =>
    match menus st !! r with
    | Some m => (Ok m, st)
    | None => (Throw TypeError_property_of_null, st)
    end.

(** [item.title = t] *)
Definition set_title (r : ref) (t : jsstring) : M unit :=
  let* it := get_item r in
  modify (set_items (insert r (with_title it t))).

(** [menu.items = its] *)
Definition set_menu_items (r : ref) (its : list ref) : M unit :=
  let* m := get_menu r in
  modify (set_menus (insert r
    (mkMenu (icon m) (menu_title m) (menu_tooltip m) its))).

(** What the expressions of [writeLine] evaluate to. *)
Inductive value : Type :=
| VUndefined
| VChildProcess.

(** A call of the logger [debug = Debug(pkg.name)]: the function that the
    debug package makes logs its arguments when its namespace is enabled,
    and returns [undefined]. *)
Definition debug (e : LogEntry) : M value :=
  fun st => (Ok VUndefined, set_debug_log (fun l => l ++ [e]) st).

(** [callee(arg)]: neither value is a function, and the call throws. *)
Definition call (callee arg : value) : M value :=
  match callee with
  | VUndefined => throw TypeError_not_a_function
  | VChildProcess => throw TypeError_not_a_function
  end.

(** [p.stdin.write(text)] *)
Definition stdin_write (p : value) (text : jsstring) : M unit :=
  match p with
  | VUndefined => throw TypeError_property_of_null
  | VChildProcess =>
      modify (set_process (fun c =>
        mkChildProcess (running c) (cp_killed c) (exit_listeners c)
                       (stdin c ++ [text])))
  end.

(** [JSON.stringify] of a reference to an item, of a reference to a menu
    and of an action, the properties in the order of their types. *)
Definition stringify_item_ref (st : State) (r : ref) : jsstring :=
  match items st !! r with
  | Some it => stringify_item it
  | None => lit "null"
  end.

Definition stringify_menu_ref (st : State) (r : ref) : jsstring :=
  match menus st !! r with
  | Some m =>
      object_text [member "icon" (quote (icon m));
                   member "title" (quote (menu_title m));
                   member "tooltip" (quote (menu_tooltip m));
                   member "items"
                     (array_text (map (stringify_item_ref st) (menu_items m)))]
  | None => lit "null"
  end.

Definition stringify_action (st : State) (a : Action) : jsstring :=
  match a with
  | UpdateItem item seq_id =>
      object_text [member "type" (quote (lit "update-item"));
                   member "item" (stringify_item_ref st item);
                   member "seq_id" (number_units seq_id)]
  | UpdateMenu menu seq_id =>
      object_text [member "type" (quote (lit "update-menu"));
                   member "menu" (stringify_menu_ref st menu);
                   member "seq_id" (number_units seq_id)]
  | UpdateMenuAndItem menu item seq_id =>
      object_text [member "type" (quote (lit "update-menu-and-item"));
                   member "menu" (stringify_menu_ref st menu);
                   member "item" (stringify_item_ref st item);
                   member "seq_id" (number_units seq_id)]
  end.

Definition JSON_stringify_menu (r : ref) : M jsstring :=
  fun st => (Ok (stringify_menu_ref st r), st).

Definition JSON_stringify_action (a : Action) : M jsstring :=
  fun st => (Ok (stringify_action st a), st).

(** [JSON.parse(line)] *)
Definition JSON_parse_line (line : jsstring) : M json :=
  match JSON_parse line with
  | Some v => ret v
  | None => throw SyntaxError
  end.

(** [action.type]; [None] is [undefined]. *)
Definition get_type (action : json) : M (option json) :=
  match action with
  | JNull => throw TypeError_property_of_null
  | JObject ms => ret (lookup_member (lit "type") ms)
  | _ => ret None
  end.

(** [t === s] for a string [s]. *)
Definition is_string (t : option json) (s : jsstring) : bool :=
  match t with
  | Some (JString x) => jsstring_eqb x s
  | _ => false
  end.

(** [item.checked = b], as the application assigns it between two calls. *)
Definition set_checked (r : ref) (b : bool) : M unit :=
  let* it := get_item r in
  modify (set_items (insert r
    (mkMenuItem (title it) (tooltip it) b (enabled it)))).

(** ** The program *)

Section SysTray.

(** [process.platform] *)
Variable platform : Platform.

(** [function updateCheckedInLinux(item)]: the item is changed in place
    and the reference given is the one returned. The pattern of the
    [else] branch is compiled from [CHECK_STR + '$']. *)
Definition updateCheckedInLinux (item : ref) : M ref :=
  if negb (is_linux platform) then ret item
  else
    let* it := get_item item in
    (if checked it then
       set_title item (title it ++ CHECK_STR)
     else
       match RegExp (CHECK_STR ++ lit "$") with
       | Some re => set_title item (replace re (or_empty (title it)) [])
       | None => throw SyntaxError
       end) ;;;
    ret item.

(** [menu.items = menu.items.map(updateCheckedInLinux)] *)
Definition update_menu_items (menu : ref) : M unit :=
  let* m := get_menu menu in
  let* its := mapM updateCheckedInLinux (menu_items m) in
  set_menu_items menu its.

(** [this._rl.on('line', h)] *)
Definition rl_on_line (h : LineHandler) : M unit :=
  modify (set_rl (fun r => mkReadLine (line_listeners r ++ [h]) (closed r))).

(** [onReady(listener)] *)
Definition onReady (this : ref) (listener : ReadyListener) : M ref :=
  rl_on_line (ReadyHandler listener) ;;;
  ret this.

(** [onClick(listener)] *)
Definition onClick (this : ref) (listener : nat) : M ref :=
  rl_on_line (ClickHandler listener) ;;;
  ret this.

(** [writeLine(line)]. No semicolon ends the line of the [debug] call and
    the next line starts with a parenthesis, so the two lines are one
    statement,
    [debug('writeLine', line + '\n', '=====')(this._process).stdin.write(line.trim() + '\n')]:
    what [debug] returns is called with the child process as argument, and
    [write] is called on the [stdin] of what that call returns. *)
Definition writeLine (this : ref) (line : jsstring) : M ref :=
  (match line with
   | _ :: _ =>
       let* logged := debug (LogWriteLine (line ++ lit_newline)) in
       let* p := call logged VChildProcess in
       stdin_write p (trim line ++ lit_newline)
   | [] => ret tt
   end) ;;;
  ret this.

(** [sendAction(action)]; each branch of the [switch] assigns to the
    action what the rule and [map] return. *)
Definition sendAction (this : ref) (action : Action) : M ref :=
  let* action :=
    match action with
    | UpdateItem item seq_id =>
        let* item := updateCheckedInLinux item in
        ret (UpdateItem item seq_id)
    | UpdateMenu menu seq_id =>
        update_menu_items menu ;;;
        ret (UpdateMenu menu seq_id)
    | UpdateMenuAndItem menu item seq_id =>
        update_menu_items menu ;;;
        let* item := updateCheckedInLinux item in
        ret (UpdateMenuAndItem menu item seq_id)
    end in
  debug (LogSendAction action) ;;;
  let* text := JSON_stringify_action action in
  writeLine this text ;;;
  ret this.

(** A listener of the application is called: it returns, and leaves the
    session as it is. *)
Definition app_called (c : AppCall) : M unit :=
  modify (set_app_calls (fun l => l ++ [c])).

(** [listener()] in the handler of [onReady]; the listener of the
    constructor is [() => this.writeLine(JSON.stringify(conf.menu))]. *)
Definition call_ready_listener (l : ReadyListener) : M unit :=
  match l with
  | Bootstrap this =>
      let* text := (fun st => JSON_stringify_menu (conf_menu st) st) in
      writeLine this text ;;; ret tt
  | AppReady id => app_called (ReadyCalled id)
  end.

(** The listeners of the ['line'] event. *)
Definition handle_line (h : LineHandler) (line : jsstring) : M unit :=
  match h with
  | OnLine => debug (LogOnLine line) ;;; ret tt
  | ReadyHandler listener =>
      let* action := JSON_parse_line line in
      let* t := get_type action in
      if is_string t (lit "ready") then
        call_ready_listener listener ;;;
        debug (LogOnReady action) ;;; ret tt
      else ret tt
  | ClickHandler listener =>
      let* action := JSON_parse_line line in
      let* t := get_type action in
      if is_string t (lit "clicked") then
        debug (LogOnClick action) ;;;
        app_called (ClickCalled listener action)
      else ret tt
  end.

(** [emit('line', line)]: the listeners are called in the order of their
    registration; what one throws leaves [emit], and the listeners after
    it are not called. *)
Fixpoint emit_handlers (hs : list LineHandler) (line : jsstring) : M unit :=
  match hs with
  | [] => ret tt
  | h :: r => handle_line h line ;;; emit_handlers r line
  end.

Definition emit_line (line : jsstring) : M unit :=
  fun st => emit_handlers (line_listeners (_rl st)) line st.

(** The child wrote a line: the interface emits it unless it was closed. *)
Definition on_line (line : jsstring) : M unit :=
  fun st => if closed (_rl st) then (Ok tt, st) else emit_line line st.

(** [onExit(listener)]: [this._process.on('exit', listener)] *)
Definition onExit (listener : ExitListener) : M unit :=
  modify (set_process (fun c =>
    mkChildProcess (running c) (cp_killed c) (exit_listeners c ++ [listener])
                   (stdin c))).

(** [this._rl.close()]; closing again does nothing. *)
Definition rl_close : M unit :=
  modify (set_rl (fun r => mkReadLine (line_listeners r) true)).

(** [this._process.kill()]: with the handle the signal is sent and
    [killed] is set, without it nothing is done; the result is whether
    the signal was sent. *)
Definition process_kill : M bool :=
  fun st =>
    if running (_process st) then
      (Ok true, set_process (fun c =>
         mkChildProcess (running c) true (exit_listeners c) (stdin c)) st)
    else (Ok false, st).

(** [kill(exitNode = true)] *)
Definition kill (exitNode : bool) : M unit :=
  (if exitNode then onExit ExitNode else ret tt) ;;;
  rl_close ;;;
  process_kill ;;; ret tt.

(** [get killed()] *)
Definition killed (st : State) : bool := cp_killed (_process st).

(** [emit('exit', code, signal)]: [process.exit(0)] ends the host, and no
    listener after it is called. *)
Fixpoint emit_exit (ls : list ExitListener) : M unit :=
  match ls with
  | [] => ret tt
  | ExitNode :: _ => modify (set_node_exited true)
  | AppExit id :: r => app_called (ExitCalled id) ;;; emit_exit r
  end.

(** The child exits: the process object loses its handle and emits
    ['exit']. *)
Definition child_exit : M unit :=
  fun st =>
    if running (_process st) then
      (modify (set_process (fun c =>
         mkChildProcess false (cp_killed c) (exit_listeners c) (stdin c))) ;;;
       emit_exit (exit_listeners (_process st))) st
    else (Ok tt, st).

(** The session when [spawn] and [createInterface] have returned:
    [spawned] is whether the child could be started. *)
Definition spawned_state (its : gmap ref MenuItem) (ms : gmap ref Menu)
    (menu : ref) (spawned : bool) : State :=
  mkState its ms menu (mkChildProcess spawned false [] [])
          (mkReadLine [] false) [] [] false.

(** [constructor(conf)], from the line after [createInterface]. *)
Definition constructor (this : ref) : M unit :=
  (fun st => update_menu_items (conf_menu st) st) ;;;
  rl_on_line OnLine ;;;
  onReady this (Bootstrap this) ;;; ret tt.

(** [new SysTray(conf)] *)
Definition new_SysTray (this : ref) (its : gmap ref MenuItem)
    (ms : gmap ref Menu) (menu : ref) (spawned : bool) : Result unit * State :=
  constructor this (spawned_state its ms menu spawned).

(** What happens to a session: the calls and assignments of the
    application, and what the child does. *)
Inductive Op : Type :=
| AssignChecked (item : ref) (b : bool)
| CallOnReady (id : nat)
| CallOnClick (id : nat)
| CallOnExit (id : nat)
| CallWriteLine (line : jsstring)
| CallSendAction (action : Action)
| CallKill (exitNode : bool)
| ChildLine (line : jsstring)
| ChildExit.

(** The session after [op], whether the call returned or threw: what an
    operation throws is for the host to catch, and the next operation
    finds the session as the throw left it. *)
Definition step (this : ref) (op : Op) (st : State) : State :=
  match op with
  | AssignChecked item b => exec (set_checked item b) st
  | CallOnReady id => exec (onReady this (AppReady id)) st
  | CallOnClick id => exec (onClick this id) st
  | CallOnExit id => exec (onExit (AppExit id)) st
  | CallWriteLine line => exec (writeLine this line) st
  | CallSendAction action => exec (sendAction this action) st
  | CallKill exitNode => exec (kill exitNode) st
  | ChildLine line => exec (on_line line) st
  | ChildExit => exec child_exit st
  end.

Definition run (this : ref) (ops : list Op) (st : State) : State :=
  fold_left (fun s op => step this op s) ops st.

End SysTray.

(** ** Predicates of the statements *)

(** What [RegExp(CHECK_STR + '$')] compiles to: a space, the group of the
    check mark, and the end of the input. *)
Definition strip_regex : regex :=
  RSeq (RSeq (RSeq REmpty (RChar 32)) (RGroup (RSeq REmpty (RChar 8730)))) REnd.

(** [√] *)
Definition check_mark : N := 8730.

(** The line is a [ready] event: it parses to an object whose [type] is
    the string [ready]. *)
Definition is_ready_line (line : jsstring) : bool :=
  match JSON_parse line with
  | Some (JObject ms) => is_string (lookup_member (lit "type") ms) (lit "ready")
  | _ => false
  end.

(** The line parses to a value that has properties, and its [type] is
    neither [ready] nor [clicked]. *)
Definition is_unrecognized_line (line : jsstring) : bool :=
  match JSON_parse line with
  | Some JNull | None => false
  | Some (JObject ms) =>
      negb (is_string (lookup_member (lit "type") ms) (lit "ready"))
      && negb (is_string (lookup_member (lit "type") ms) (lit "clicked"))
  | Some _ => true
  end.

(** A handler that decodes the line: one of [onReady] or [onClick]. *)
Definition decodes (h : LineHandler) : bool :=
  match h with
  | OnLine => false
  | ReadyHandler _ | ClickHandler _ => true
  end.



(** The first [kill] of [ops] comes before the first exit of the child. *)
Fixpoint kill_before_exit (ops : list Op) : bool :=
  match ops with
  | [] => false
  | CallKill _ :: _ => true
  | ChildExit :: _ => false
  | _ :: r => kill_before_exit r
  end.

Definition is_child_exit (op : Op) : bool :=
  match op with ChildExit => true | _ => false end.

(** The exit of the child was observed in the course of [ops]. *)
Definition exit_observed (ops : list Op) : bool := existsb is_child_exit ops.

(** What a computation leaves of the session besides the store. *)
Definition same_session (st st' : State) : Prop :=
  conf_menu st' = conf_menu st /\ _process st' = _process st /\
  _rl st' = _rl st /\ debug_log st' = debug_log st /\
  app_calls st' = app_calls st /\ node_exited st' = node_exited st.

(** What a computation leaves of the session besides its logs and what it
    did to the host. *)
Definition same_core (st st' : State) : Prop :=
  items st' = items st /\ menus st' = menus st /\
  conf_menu st' = conf_menu st /\ _process st' = _process st /\
  _rl st' = _rl st.

(** ** The sessions of the scenarios *)

Definition this0 : ref := 100%positive.
Definition item1 : ref := 1%positive.
Definition menu1 : ref := 2%positive.

(** [{title:'B', tooltip:'', checked:true, enabled:true}] *)
Definition item_B : MenuItem := mkMenuItem (lit "B") [] true true.

(** [{title:'A', tooltip:'', checked:false, enabled:true}] *)
Definition item_A : MenuItem := mkMenuItem (lit "A") [] false true.

(** [{icon:'i', title:'T', tooltip:'tt', items:[item]}] *)
Definition menu_T : Menu := mkMenu (lit "i") (lit "T") (lit "tt") [item1].

(** A store with the item alone. *)
Definition store_of (it : MenuItem) : State :=
  spawned_state {[ item1 := it ]} ∅ menu1 true.

(** A session whose store holds one item and the menu of it. *)
Definition session_of (it : MenuItem) : State :=
  snd (new_SysTray linux this0 {[ item1 := it ]} {[ menu1 := menu_T ]}
                   menu1 true).

Definition item3 : ref := 3%positive.

(** The session of the menu of item A, with the item B in the store. *)
Definition scenario : State :=
  snd (new_SysTray linux this0 {[ item1 := item_A; item3 := item_B ]}
                   {[ menu1 := menu_T ]} menu1 true).

(** The line of the action that updates the item B with [seq_id] 7, the
    title with its marker. *)
Definition update_B_text : jsstring :=
  qlit "{'type':'update-item','item':{'title':'B (" ++ [check_mark]
  ++ qlit ")','tooltip':'','checked':true,'enabled':true},'seq_id':7}".

Definition ready_line : jsstring := qlit "{'type':'ready'}".

(** A line that is cut before its end. *)
Definition cut_line : jsstring := qlit "{'type':'ready'".

(** The session of the menu of item A, with a listener of the application
    for each of the two events. *)
Definition listening : State :=
  run linux this0 [CallOnReady 1; CallOnClick 2] (session_of item_A).

(** ** Locating the binary *)

(** What the functions that locate the binary throw: the two errors of
    the file, and the TypeError of [resolve] and [join] for an argument
    that is not a string. *)
Inductive BinError : Type :=
| ArchitectureNotSupported
| UnableToLocate (binName : jsstring)
| PathArgumentNotString.

(** [conf.copyDir], a boolean or a string. *)
Inductive CopyDir : Type :=
| CopyFlag (b : bool)
| CopyPath (dir : jsstring).

(** [if (copyDir)] *)
Definition copyDir_truthy (c : CopyDir) : bool :=
  match c with
  | CopyFlag b => b
  | CopyPath [] => false
  | CopyPath (_ :: _) => true
  end.

(** The paths that exist. *)
Definition existsSync (fs : gset (list N)) (path : jsstring) : bool :=
  bool_decide (path ∈ fs).

(** [ensureDirSync(dir)] and [copySync(src, dest)], as far as [existsSync]
    sees them. *)
Definition ensureDirSync (dir : jsstring) (fs : gset (list N)) : gset (list N) :=
  {[ dir ]} ∪ fs.

Definition copySync (src dest : jsstring) (fs : gset (list N)) : gset (list N) :=
  {[ dest ]} ∪ fs.

(** A value in a template literal; [None] is [undefined]. *)
Definition template (o : option jsstring) : jsstring :=
  match o with
  | Some s => s
  | None => lit "undefined"
  end.

Section BinaryPath.

(** [os.arch()], [process.platform], [__dirname], [process.cwd()],
    [os.homedir()], [pkg.version], and [resolve] and [join] of the path
    module on the list of their arguments. *)
Variable arch : jsstring.
Variable platform : Platform.
Variable dirname : jsstring.
Variable cwd : jsstring.
Variable homedir : jsstring.
Variable version : jsstring.
Variable resolve : list jsstring -> jsstring.
Variable join : list jsstring -> jsstring.

(** [getWindowsBinaryName()] *)
Definition getWindowsBinaryName : BinError + jsstring :=
  if jsstring_eqb arch (lit "ia32") then inr (lit "tray_windows_i386.exe")
  else if jsstring_eqb arch (lit "x64") then inr (lit "tray_windows_amd64.exe")
  else inl ArchitectureNotSupported.

(** [({win32: getWindowsBinaryName(), darwin: ..., linux: ...})[process.platform]]:
    the three values of the object are computed, the one of [win32]
    first, and then the property is read; [None] is [undefined]. *)
Definition binName_of (debug : bool) : BinError + option jsstring :=
  match getWindowsBinaryName with
  | inl e => inl e
  | inr windowsName =>
      let darwinName := lit "tray_darwin" ++ (if debug then [] else lit "_release") in
      let linuxName := lit "tray_linux" ++ (if debug then [] else lit "_release") in
      inr (match platform with
           | win32 => Some windowsName
           | darwin => Some darwinName
           | linux => Some linuxName
           | other_platform => None
           end)
  end.

(** [getBinaryPath(debug)] *)
Definition getBinaryPath (debug : bool) (fs : gset (list N))
  : BinError + jsstring :=
  match binName_of debug with
  | inl e => inl e
  | inr binName =>
      let binPath := resolve [dirname ++ lit "/../traybin/" ++ template binName] in
      if existsSync fs binPath then inr binPath
      else
        match binName with
        | None => inl PathArgumentNotString
        | Some name =>
            let localBinPath := resolve [cwd; name] in
            if existsSync fs localBinPath then inr localBinPath
            else inl (UnableToLocate name)
        end
  end.

(** [getTrayBinPath(debug, copyDir)]; an argument that is [undefined]
    takes its default, [false]. *)
Definition getTrayBinPath (debug : option bool) (copyDir : option CopyDir)
    (fs : gset (list N)) : (BinError + jsstring) * gset (list N) :=
  let debug := default false debug in
  let copyDir := default (CopyFlag false) copyDir in
  match getBinaryPath debug fs with
  | inl e => (inl e, fs)
  | inr binPath =>
      match binName_of debug with
      | inl e => (inl e, fs)
      | inr binName =>
          if copyDir_truthy copyDir then
            let copyDir :=
              join [match copyDir with
                    | CopyPath dir => dir
                    | CopyFlag _ => homedir ++ lit "/.cache/node-systray/"
                    end; version] in
            match binName with
            | None => (inl PathArgumentNotString, fs)
            | Some name =>
                let copyDistPath := join [copyDir; name] in
                if existsSync fs copyDistPath then (inr copyDistPath, fs)
                else (inr copyDistPath,
                      copySync binPath copyDistPath (ensureDirSync copyDir fs))
            end
          else (inr binPath, fs)
      end
  end.

End BinaryPath.

(** [path.join] and [path.resolve] on paths that need no normalising, for
    the examples. *)
Definition join_plain (parts : list jsstring) : jsstring :=
  fold_right (fun p acc => match acc with [] => p | _ => p ++ lit "/" ++ acc end)
             [] parts.

(** ** The rule on the value of an item *)

(** The item that the rule leaves on the checkbox-emulating platform. *)
Definition rendered (it : MenuItem) : MenuItem :=
  with_title it
    (if checked it then title it ++ CHECK_STR
     else match RegExp (CHECK_STR ++ lit "$") with
          | Some re => replace re (or_empty (title it)) []
          | None => title it
          end).

(** The references that [sendAction] applies the rule to, in the order
    of the applications; [None] when the menu of the action is [null]. *)
Definition applications (st : State) (a : Action) : option (list ref) :=
  match a with
  | UpdateItem item _ => Some [item]
  | UpdateMenu menu _ => menu_items <$> menus st !! menu
  | UpdateMenuAndItem menu item _ =>
      (fun m => menu_items m ++ [item]) <$> menus st !! menu
  end.

(** How many times [r] occurs in [l]. *)
Definition occurrences (r : ref) (l : list ref) : nat :=
  count_occ Pos.eq_dec l r.

(** ** Predicates of the session *)



(** The handlers that the operations register, in order. *)
Definition registered (ops : list Op) : list LineHandler :=
  flat_map (fun op => match op with
                      | CallOnReady id => [ReadyHandler (AppReady id)]
                      | CallOnClick id => [ClickHandler id]
                      | _ => []
                      end) ops.

(** The session after [op] has the interface of the session before it,
    with the handler that [op] registers, closed when [op] is [kill]. *)
Definition rl_after (op : Op) (rl : ReadLine) : ReadLine :=
  match op with
  | CallKill _ => mkReadLine (line_listeners rl) true
  | _ => mkReadLine (line_listeners rl ++ registered [op]) (closed rl)
  end.

(** * Properties *)

(** ** Strings and the strip pattern *)

Example CHECK_STR_units : CHECK_STR = [32; 40; 8730; 41].
Proof. reflexivity. Qed.

Example trim_blank : trim (lit "   ") = [].
Proof. reflexivity. Qed.

Example trim_padded : trim (lit "  a b  ") = lit "a b".
Proof. reflexivity. Qed.

Example RegExp_unbalanced : RegExp (lit "a)") = None.
Proof. reflexivity. Qed.

(** The pattern strips a space and a check mark at the end, and leaves the
    marker with its parentheses. *)
Example replace_space_mark :
  replace strip_regex (lit "A " ++ [check_mark]) [] = lit "A".
Proof. reflexivity. Qed.

Example replace_marker :
  replace strip_regex (lit "A" ++ CHECK_STR) [] = lit "A" ++ CHECK_STR.
Proof. reflexivity. Qed.

Example JSON_parse_ready :
  JSON_parse ready_line = Some (JObject [(lit "type", JString (lit "ready"))]).
Proof. reflexivity. Qed.

Example JSON_parse_clicked :
  JSON_parse (qlit "{'type':'clicked','item':{'title':'B','checked':true},'seq_id':7}")
  = Some (JObject [(lit "type", JString (lit "clicked"));
                   (lit "item", JObject [(lit "title", JString (lit "B"));
                                         (lit "checked", JBool true)]);
                   (lit "seq_id", JNumber (lit "7"))]).
Proof. reflexivity. Qed.

Example JSON_parse_escapes :
  JSON_parse (qlit "['\u221a\n', -1.5e3, null, false, {}]")
  = Some (JArray [JString [check_mark; 10]; JNumber (lit "-1.5e3"); JNull;
                  JBool false; JObject []]).
Proof. reflexivity. Qed.

Example JSON_parse_cut : JSON_parse cut_line = None.
Proof. reflexivity. Qed.

Example JSON_parse_trailing_comma : JSON_parse (lit "[1,]") = None.
Proof. reflexivity. Qed.

Example JSON_parse_leading_zero : JSON_parse (lit "01") = None.
Proof. reflexivity. Qed.

Example JSON_parse_empty : JSON_parse [] = None.
Proof. reflexivity. Qed.

Example stringify_item_B :
  stringify_item item_B =
  qlit "{'title':'B','tooltip':'','checked':true,'enabled':true}".
Proof. reflexivity. Qed.

Example quote_escapes :
  quote (qlit "a'b" ++ [10; 7; 55357]) = qlit "'a\'b\n\u0007\ud83d'".
Proof. reflexivity. Qed.

Example stringify_menu_T :
  stringify_menu_ref (session_of item_A) menu1 =
  qlit "{'icon':'i','title':'T','tooltip':'tt','items':[{'title':'A','tooltip':'','checked':false,'enabled':true}]}".
Proof. reflexivity. Qed.

Example writeLine_abc :
  writeLine this0 (lit "abc") scenario =
  (Throw TypeError_not_a_function,
   set_debug_log (fun l => l ++ [LogWriteLine (lit "abc" ++ lit_newline)])
                 scenario).
Proof. reflexivity. Qed.

Example writeLine_blank :
  fst (writeLine this0 (lit "   ") scenario) = Throw TypeError_not_a_function.
Proof. reflexivity. Qed.

(** The constructor leaves the title of the unchecked item A as it is. *)
Example constructor_item_A :
  items (session_of item_A) !! item1 = Some item_A.
Proof. reflexivity. Qed.

(** A [clicked] line reaches the listener of [onClick], with the event. *)
Example clicked_line_dispatched :
  app_calls (exec (on_line (qlit "{'type':'clicked','seq_id':7}")) listening)
  = [ClickCalled 2 (JObject [(lit "type", JString (lit "clicked"));
                             (lit "seq_id", JNumber (lit "7"))])].
Proof. reflexivity. Qed.

(** When the item of an action is also an item of its menu, the rule is
    applied to the one object twice. *)
Example update_menu_and_item_shared :
  title <$> items (exec (sendAction linux this0
                           (UpdateMenuAndItem menu1 item1 7))
                        (session_of item_B)) !! item1
  = Some (lit "B" ++ CHECK_STR ++ CHECK_STR ++ CHECK_STR).
Proof. reflexivity. Qed.

Lemma RegExp_strip : RegExp (CHECK_STR ++ lit "$") = Some strip_regex.
Proof. reflexivity. Qed.

Lemma or_empty_id (s : jsstring) : or_empty s = s.
Proof. by destruct s. Qed.

(** The pattern matches the two code units of a space and a check mark,
    and nothing else. *)
Lemma rmatch_strip_regex (s rest : jsstring) :
  rmatch strip_regex s = Some rest -> s = [32; check_mark] /\ rest = [].
Proof.
  unfold strip_regex, check_mark. simpl.
  destruct s as [|a [|b [|c s]]]; simpl; try discriminate.
  - destruct (a =? 32); discriminate.
  - destruct (N.eqb_spec a 32); try discriminate.
    destruct (N.eqb_spec b 8730); try discriminate.
    intros [= <-]. by subst.
  - destruct (a =? 32); try discriminate.
    destruct (b =? 8730); discriminate.
Qed.

Lemma rmatch_strip_regex_None (s : jsstring) :
  s <> [32; check_mark] -> rmatch strip_regex s = None.
Proof.
  intros Hs. destruct (rmatch strip_regex s) as [rest|] eqn:E; [|done].
  by apply rmatch_strip_regex in E as [? _].
Qed.

(** A title without check mark is left as it is. *)
Lemma replace_no_check_mark (s : jsstring) :
  check_mark ∉ s -> replace strip_regex s [] = s.
Proof.
  induction s as [|c s IH]; intros Hs.
  - reflexivity.
  - cbn [replace]. rewrite rmatch_strip_regex_None.
    + f_equal. apply IH. intros Hin. apply Hs. by right.
    + intros [= -> ->]. apply Hs. set_solver.
Qed.

(** The marker that was appended is not what the pattern matches. *)
Lemma replace_appended (t : jsstring) :
  replace strip_regex (t ++ CHECK_STR) [] = t ++ CHECK_STR.
Proof.
  induction t as [|c t IH].
  - reflexivity.
  - cbn [app replace]. rewrite rmatch_strip_regex_None.
    + by rewrite IH.
    + intros [= _ Ht]. apply (f_equal length) in Ht.
      rewrite length_app in Ht. cbn in Ht. lia.
Qed.

Lemma append_changes (t : jsstring) : t ++ CHECK_STR <> t.
Proof.
  intros H. apply (f_equal length) in H. rewrite length_app in H.
  cbn in H. lia.
Qed.

(** ** The checked-marker rule *)

Lemma with_title_same (it : MenuItem) : with_title it (title it) = it.
Proof. by destruct it. Qed.

Lemma updateCheckedInLinux_other (pf : Platform) (r : ref) (st : State) :
  is_linux pf = false -> updateCheckedInLinux pf r st = (Ok r, st).
Proof. intros H. unfold updateCheckedInLinux. by rewrite H. Qed.

Lemma updateCheckedInLinux_checked (st : State) (r : ref) (it : MenuItem) :
  items st !! r = Some it -> checked it = true ->
  updateCheckedInLinux linux r st =
  (Ok r, set_items (insert r (with_title it (title it ++ CHECK_STR))) st).
Proof.
  intros Hr Hc. unfold updateCheckedInLinux, bind, get_item, set_title, bind,
    get_item, modify, ret. cbn. by rewrite Hr, Hc, Hr.
Qed.

Lemma updateCheckedInLinux_unchecked (st : State) (r : ref) (it : MenuItem) :
  items st !! r = Some it -> checked it = false ->
  updateCheckedInLinux linux r st =
  (Ok r, set_items
           (insert r (with_title it (replace strip_regex (title it) []))) st).
Proof.
  intros Hr Hc. unfold updateCheckedInLinux, bind, get_item, set_title, bind,
    get_item, modify, ret. cbn [is_linux negb].
  rewrite Hr, Hc, RegExp_strip, Hr. by rewrite or_empty_id.
Qed.

Lemma updateCheckedInLinux_null (pf : Platform) (st : State) (r : ref) :
  items st !! r = None -> is_linux pf = true ->
  updateCheckedInLinux pf r st = (Throw TypeError_property_of_null, st).
Proof.
  intros Hr Hp. unfold updateCheckedInLinux, bind, get_item.
  rewrite Hp. cbn [negb]. by rewrite Hr.
Qed.

Lemma items_set_items (f : gmap ref MenuItem -> gmap ref MenuItem) (st : State) :
  items (set_items f st) = f (items st).
Proof. reflexivity. Qed.

Lemma set_items_insert_same (st : State) (r : ref) (it : MenuItem) :
  items st !! r = Some it -> set_items (insert r it) st = st.
Proof.
  intros Hr. destruct st as [its ms cm pr rl lg ac ne]. unfold set_items.
  cbn in *. f_equal. by apply insert_id.
Qed.

Lemma updateCheckedInLinux_unmarked (st : State) (r : ref) (it : MenuItem) :
  items st !! r = Some it -> checked it = false -> check_mark ∉ title it ->
  updateCheckedInLinux linux r st = (Ok r, st).
Proof.
  intros Hr Hc Hm. rewrite (updateCheckedInLinux_unchecked st r it Hr Hc).
  rewrite replace_no_check_mark by done. rewrite with_title_same.
  by rewrite set_items_insert_same.
Qed.

Lemma is_linux_true (pf : Platform) : is_linux pf = true -> pf = linux.
Proof. by destruct pf. Qed.

(** C1, as the code has it. On the checkbox-emulating platform the rule is
    not idempotent for a checked item: each application appends the marker
    again, so that one application leaves the title followed by the marker
    and two leave it followed by two markers. Applying the rule twice is
    applying it once on every other platform, and on the checkbox-emulating
    platform for an unchecked item whose title holds no check mark. *)
Theorem updateCheckedInLinux_twice
    (pf : Platform) (st : State) (r : ref) (it : MenuItem) :
  items st !! r = Some it ->
  (is_linux pf = false ->
   (updateCheckedInLinux pf r ;;; updateCheckedInLinux pf r) st =
   updateCheckedInLinux pf r st) /\
  (is_linux pf = true -> checked it = true ->
   items (exec (updateCheckedInLinux pf r) st) !! r =
     Some (with_title it (title it ++ CHECK_STR)) /\
   items (exec (updateCheckedInLinux pf r ;;; updateCheckedInLinux pf r) st) !! r =
     Some (with_title it (title it ++ CHECK_STR ++ CHECK_STR))) /\
  (is_linux pf = true -> checked it = false -> check_mark ∉ title it ->
   (updateCheckedInLinux pf r ;;; updateCheckedInLinux pf r) st =
   updateCheckedInLinux pf r st).
Proof.
  intros Hr. split; [|split].
  - intros Hp. unfold bind. by rewrite !updateCheckedInLinux_other.
  - intros Hp%is_linux_true Hc. subst pf. unfold exec, bind.
    rewrite (updateCheckedInLinux_checked st r it Hr Hc). cbn [snd].
    rewrite items_set_items, lookup_insert_eq. split; [done|].
    erewrite updateCheckedInLinux_checked;
      [|by rewrite items_set_items, lookup_insert_eq|done].
    cbn [snd]. rewrite items_set_items, lookup_insert_eq.
    unfold with_title. cbn. by rewrite <- app_assoc.
  - intros Hp%is_linux_true Hc Hm. subst pf. unfold bind.
    by rewrite !(updateCheckedInLinux_unmarked st r it Hr Hc Hm).
Qed.

Lemma updateCheckedInLinux_twice_witness :
  ((updateCheckedInLinux darwin item1 ;;; updateCheckedInLinux darwin item1)
     (store_of item_B) = updateCheckedInLinux darwin item1 (store_of item_B)) /\
  items (exec (updateCheckedInLinux linux item1 ;;; updateCheckedInLinux linux item1)
              (store_of item_B)) !! item1 =
    Some (with_title item_B (lit "B" ++ CHECK_STR ++ CHECK_STR)) /\
  ((updateCheckedInLinux linux item1 ;;; updateCheckedInLinux linux item1)
     (store_of item_A) = updateCheckedInLinux linux item1 (store_of item_A)).
Proof.
  split; [|split].
  - destruct (updateCheckedInLinux_twice darwin (store_of item_B) item1 item_B)
      as (H & _ & _); [reflexivity|]. by apply H.
  - destruct (updateCheckedInLinux_twice linux (store_of item_B) item1 item_B)
      as (_ & H & _); [reflexivity|]. by apply H.
  - destruct (updateCheckedInLinux_twice linux (store_of item_A) item1 item_A)
      as (_ & _ & H); [reflexivity|]. apply H; [reflexivity..|compute_done].
Defined.

(** C1, as the claim has it, fails for the item of title B that is
    checked: a second application appends a second marker. *)
Lemma updateCheckedInLinux_not_idempotent :
  title <$> items (exec (updateCheckedInLinux linux item1) (store_of item_B)) !! item1
    = Some (lit "B" ++ CHECK_STR) /\
  title <$> items (exec (updateCheckedInLinux linux item1 ;;;
                         updateCheckedInLinux linux item1) (store_of item_B)) !! item1
    = Some (lit "B" ++ CHECK_STR ++ CHECK_STR) /\
  (updateCheckedInLinux linux item1 ;;; updateCheckedInLinux linux item1)
    (store_of item_B) <> updateCheckedInLinux linux item1 (store_of item_B).
Proof.
  split; [reflexivity|]. split; [reflexivity|].
  intros H.
  apply (f_equal (fun x => title <$> items (snd x) !! item1)) in H.
  vm_compute in H. discriminate.
Qed.

(** C2: after the rule has appended the marker to the title of a checked
    item and the item was unchecked, the rule leaves the marker where it
    is: the title is the original one followed by the marker, and not the
    original one. The pattern compiled from the marker has the
    parentheses of the marker as a group, and matches a space and a check
    mark at the end of the title. *)
Theorem strip_after_append_keeps_marker (st : State) (r : ref) (it : MenuItem) :
  items st !! r = Some it -> checked it = true ->
  fst ((updateCheckedInLinux linux r ;;; set_checked r false ;;;
        updateCheckedInLinux linux r) st) = Ok r /\
  title <$> items (exec (updateCheckedInLinux linux r ;;; set_checked r false ;;;
                         updateCheckedInLinux linux r) st) !! r
    = Some (title it ++ CHECK_STR) /\
  title it ++ CHECK_STR <> title it.
Proof.
  intros Hr Hc. unfold exec, bind at 1 3.
  rewrite (updateCheckedInLinux_checked st r it Hr Hc).
  unfold bind, set_checked, bind, get_item, modify.
  rewrite items_set_items, lookup_insert_eq.
  erewrite updateCheckedInLinux_unchecked;
    [|by rewrite items_set_items, lookup_insert_eq|done].
  cbn [fst snd]. rewrite !items_set_items, lookup_insert_eq.
  cbn. rewrite replace_appended. auto using append_changes.
Qed.

Lemma strip_after_append_keeps_marker_witness :
  title <$> items (exec (updateCheckedInLinux linux item1 ;;;
                         set_checked item1 false ;;;
                         updateCheckedInLinux linux item1) (store_of item_B)) !! item1
    = Some (lit "B" ++ CHECK_STR).
Proof.
  destruct (strip_after_append_keeps_marker (store_of item_B) item1 item_B)
    as (_ & H & _); [reflexivity..|]. exact H.
Defined.

(** C9, as the code has it. The rule returns the reference it was given.
    On the checkbox-emulating platform it writes a title into the object
    of the caller, the title followed by the marker when the item is
    checked, and leaves the other fields of the item, the other objects
    and the rest of the session as they are. On every other platform it
    leaves the whole state as it is. *)
Theorem updateCheckedInLinux_in_place
    (pf : Platform) (st : State) (r : ref) (it : MenuItem) :
  items st !! r = Some it ->
  (is_linux pf = false -> updateCheckedInLinux pf r st = (Ok r, st)) /\
  (is_linux pf = true ->
   exists t : jsstring,
     updateCheckedInLinux pf r st =
       (Ok r, set_items (insert r (with_title it t)) st) /\
     (checked it = true -> t = title it ++ CHECK_STR)).
Proof.
  intros Hr. split.
  - apply updateCheckedInLinux_other.
  - intros Hp%is_linux_true. subst pf. destruct (checked it) eqn:Hc.
    + exists (title it ++ CHECK_STR). split; [|done].
      by apply updateCheckedInLinux_checked.
    + exists (replace strip_regex (title it) []). split; [|done].
      by apply updateCheckedInLinux_unchecked.
Qed.

Lemma updateCheckedInLinux_in_place_witness :
  updateCheckedInLinux win32 item1 (store_of item_B) = (Ok item1, store_of item_B) /\
  exists t : jsstring,
    updateCheckedInLinux linux item1 (store_of item_B) =
      (Ok item1, set_items (insert item1 (with_title item_B t)) (store_of item_B)) /\
    (checked item_B = true -> t = title item_B ++ CHECK_STR).
Proof.
  destruct (updateCheckedInLinux_in_place win32 (store_of item_B) item1 item_B)
    as (H1 & _); [reflexivity|].
  destruct (updateCheckedInLinux_in_place linux (store_of item_B) item1 item_B)
    as (_ & H2); [reflexivity|].
  split; [by apply H1 | by apply H2].
Defined.

(** C9, as the claim has it, fails for the item of title B that is
    checked: after the call the object of the caller has another title. *)
Lemma updateCheckedInLinux_mutates :
  items (exec (updateCheckedInLinux linux item1) (store_of item_B)) !! item1
    <> items (store_of item_B) !! item1.
Proof. vm_compute. discriminate. Qed.

(** ** [writeLine] and [sendAction] *)

Lemma same_session_refl (st : State) : same_session st st.
Proof. by repeat split. Qed.

Lemma same_session_trans (a b c : State) :
  same_session a b -> same_session b c -> same_session a c.
Proof. unfold same_session. intros; destruct_and!; repeat split; congruence. Qed.

Lemma updateCheckedInLinux_same_session (pf : Platform) (r : ref) (st : State) :
  same_session st (snd (updateCheckedInLinux pf r st)).
Proof.
  destruct (is_linux pf) eqn:Hp.
  - destruct (items st !! r) as [it|] eqn:Hr.
    + apply is_linux_true in Hp as ->. destruct (checked it) eqn:Hc.
      * rewrite (updateCheckedInLinux_checked st r it Hr Hc). by repeat split.
      * rewrite (updateCheckedInLinux_unchecked st r it Hr Hc).
        by repeat split.
    + rewrite updateCheckedInLinux_null by done. apply same_session_refl.
  - rewrite updateCheckedInLinux_other by done. apply same_session_refl.
Qed.

Lemma mapM_same_session (pf : Platform) (l : list ref) (st : State) :
  same_session st (snd (mapM (updateCheckedInLinux pf) l st)).
Proof.
  revert st. induction l as [|x l IH]; intros st; [apply same_session_refl|].
  cbn [mapM]. unfold bind at 1.
  pose proof (updateCheckedInLinux_same_session pf x st) as H1.
  destruct (updateCheckedInLinux pf x st) as [[y|e] st1]; [|exact H1].
  unfold bind. pose proof (IH st1) as H2.
  destruct (mapM (updateCheckedInLinux pf) l st1) as [[ys|e] st2];
    cbn in *; by eapply same_session_trans.
Qed.

Lemma update_menu_items_same_session (pf : Platform) (m : ref) (st : State) :
  same_session st (snd (update_menu_items pf m st)).
Proof.
  unfold update_menu_items, bind at 1, get_menu.
  destruct (menus st !! m) as [mn|]; [|apply same_session_refl].
  unfold bind at 1. pose proof (mapM_same_session pf (menu_items mn) st) as H.
  destruct (mapM (updateCheckedInLinux pf) (menu_items mn) st) as [[ys|e] st1];
    [|exact H].
  unfold set_menu_items, bind, get_menu, modify. cbn [snd] in H.
  destruct (menus st1 !! m); [|exact H]. eapply same_session_trans; [exact H|].
  by repeat split.
Qed.

Lemma writeLine_empty (this : ref) (st : State) :
  writeLine this [] st = (Ok this, st).
Proof. reflexivity. Qed.

Lemma writeLine_nonempty (this : ref) (c : N) (l : jsstring) (st : State) :
  writeLine this (c :: l) st =
  (Throw TypeError_not_a_function,
   set_debug_log (fun lg => lg ++ [LogWriteLine ((c :: l) ++ lit_newline)]) st).
Proof. reflexivity. Qed.

Lemma stringify_action_nonempty (st : State) (a : Action) :
  exists rest : jsstring, stringify_action st a = 123 :: rest.
Proof. destruct a; eexists; reflexivity. Qed.

(** [sendAction] throws, and leaves the child process and the interface
    as they were. *)
Lemma sendAction_throws (pf : Platform) (this : ref) (a : Action) (st : State) :
  exists (e : Error) (st' : State),
    sendAction pf this a st = (Throw e, st') /\
    _process st' = _process st /\ _rl st' = _rl st.
Proof.
  unfold sendAction. unfold bind at 1.
  set (prep := match a with UpdateItem _ _ => _ | _ => _ end).
  assert (same_session st (snd (prep st))) as Hs.
  { subst prep. destruct a as [it sq|mn sq|mn it sq].
    - unfold bind. pose proof (updateCheckedInLinux_same_session pf it st) as H.
      by destruct (updateCheckedInLinux pf it st) as [[y|e] st1].
    - unfold bind. pose proof (update_menu_items_same_session pf mn st) as H.
      by destruct (update_menu_items pf mn st) as [[y|e] st1].
    - unfold bind at 1.
      pose proof (update_menu_items_same_session pf mn st) as H.
      destruct (update_menu_items pf mn st) as [[y|e] st1]; [|exact H].
      unfold bind.
      pose proof (updateCheckedInLinux_same_session pf it st1) as H'.
      destruct (updateCheckedInLinux pf it st1) as [[z|e] st2];
        eapply same_session_trans; [exact H|exact H'|exact H|exact H']. }
  destruct (prep st) as [[a'|e] st1]; cbn [snd] in Hs.
  - unfold bind, debug, JSON_stringify_action.
    destruct (stringify_action_nonempty
                (set_debug_log (fun l => l ++ [LogSendAction a']) st1) a')
      as [rest ->].
    rewrite writeLine_nonempty. do 2 eexists. split; [reflexivity|].
    cbn. by destruct Hs as (_ & -> & -> & _).
  - do 2 eexists. split; [reflexivity|]. by destruct Hs as (_ & -> & -> & _).
Qed.

(** C6: the empty line is not written and the call returns; a line that
    is not empty, blank or not, is logged, and the call throws at the
    call of what [debug] returned, before anything is written: the
    trimmed text and its newline do not reach the child. *)
Theorem writeLine_never_writes (this : ref) (st : State) :
  writeLine this [] st = (Ok this, st) /\
  forall (c : N) (l : jsstring),
    fst (writeLine this (c :: l) st) = Throw TypeError_not_a_function /\
    stdin (_process (snd (writeLine this (c :: l) st))) = stdin (_process st) /\
    debug_log (snd (writeLine this (c :: l) st)) =
      debug_log st ++ [LogWriteLine ((c :: l) ++ lit_newline)].
Proof. split; [reflexivity|]. intros c l. by rewrite writeLine_nonempty. Qed.

(** C3: on the checkbox-emulating platform, sending the action that
    updates the checked item B with [seq_id] 7 gives the item the title
    with the marker and hands [writeLine] the line whose [item.title] is
    that title and whose [seq_id] is 7; [writeLine] throws, and no line is
    written to the child. *)
Theorem sendAction_update_item_B :
  fst (sendAction linux this0 (UpdateItem item3 7) scenario)
    = Throw TypeError_not_a_function /\
  stdin (_process (snd (sendAction linux this0 (UpdateItem item3 7) scenario)))
    = [] /\
  title <$> items (snd (sendAction linux this0 (UpdateItem item3 7) scenario)) !! item3
    = Some (lit "B" ++ CHECK_STR) /\
  debug_log (snd (sendAction linux this0 (UpdateItem item3 7) scenario))
    = [LogSendAction (UpdateItem item3 7);
       LogWriteLine (update_B_text ++ lit_newline)].
Proof. repeat split; vm_compute; reflexivity. Qed.

(** C10: [onReady] and [onClick] return the instance, and [writeLine]
    returns it for the empty line; for a line that is not empty
    [writeLine] throws, and [sendAction] throws for every action: neither
    returns the instance. *)
Theorem chaining_returns (pf : Platform) (this : ref) (st : State) :
  (forall l : ReadyListener, fst (onReady this l st) = Ok this) /\
  (forall l : nat, fst (onClick this l st) = Ok this) /\
  fst (writeLine this [] st) = Ok this /\
  (forall (c : N) (l : jsstring),
     fst (writeLine this (c :: l) st) = Throw TypeError_not_a_function) /\
  (forall a : Action, exists e : Error,
     fst (sendAction pf this a st) = Throw e).
Proof.
  repeat split; try reflexivity.
  intros a. destruct (sendAction_throws pf this a st) as (e & st' & -> & _).
  by exists e.
Qed.

(** ** [kill] and [killed] *)

Lemma same_core_refl (st : State) : same_core st st.
Proof. by repeat split. Qed.

Lemma same_core_trans (a b c : State) :
  same_core a b -> same_core b c -> same_core a c.
Proof. unfold same_core. intros; destruct_and!; repeat split; congruence. Qed.

Lemma emit_exit_spec (ls : list ExitListener) (st : State) :
  fst (emit_exit ls st) = Ok tt /\
  same_core st (snd (emit_exit ls st)) /\
  debug_log (snd (emit_exit ls st)) = debug_log st.
Proof.
  revert st. induction ls as [|[|id] ls IH]; intros st.
  - by repeat split.
  - by repeat split.
  - cbn [emit_exit]. unfold bind, app_called, modify.
    destruct (IH (set_app_calls (fun l => l ++ [ExitCalled id]) st))
      as (H1 & H2 & H3).
    destruct (emit_exit ls _) as [r st']. cbn in *. subst r.
    split; [done|]. split; [|done].
    eapply same_core_trans; [|exact H2]. by repeat split.
Qed.


Lemma kill_flags (exitNode : bool) (st : State) :
  running (_process (exec (kill exitNode) st)) = running (_process st) /\
  cp_killed (_process (exec (kill exitNode) st)) =
    cp_killed (_process st) || running (_process st).
Proof.
  unfold exec, kill, bind, onExit, rl_close, process_kill, modify, ret.
  destruct exitNode; cbn; destruct (running (_process st)) eqn:E; cbn;
    rewrite ?E, ?orb_true_r, ?orb_false_r; by split.
Qed.

Lemma child_exit_ok (st : State) : fst (child_exit st) = Ok tt.
Proof.
  unfold child_exit. destruct (running (_process st)); [|done].
  unfold bind, modify.
  by destruct (emit_exit_spec (exit_listeners (_process st))
    (set_process (fun c => mkChildProcess false (cp_killed c)
                             (exit_listeners c) (stdin c)) st)) as (-> & _).
Qed.

Lemma child_exit_flags (st : State) :
  running (_process (exec child_exit st)) = false /\
  cp_killed (_process (exec child_exit st)) = cp_killed (_process st).
Proof.
  unfold exec, child_exit. destruct (running (_process st)) eqn:E; [|done].
  unfold bind, modify.
  destruct (emit_exit_spec (exit_listeners (_process st))
    (set_process (fun c => mkChildProcess false (cp_killed c)
                             (exit_listeners c) (stdin c)) st))
    as (H1 & (_ & _ & _ & H2 & _) & _).
  destruct (emit_exit _ _) as [r st']. cbn in *. subst r. cbn.
  by rewrite H2.
Qed.




(** ** The lines of the child *)

Lemma writeLine_core (this : ref) (line : jsstring) (st : State) :
  same_core st (snd (writeLine this line st)) /\
  app_calls (snd (writeLine this line st)) = app_calls st.
Proof. destruct line; by repeat split. Qed.

Lemma handle_line_core (h : LineHandler) (line : jsstring) (st : State) :
  same_core st (snd (handle_line h line st)).
Proof.
  destruct h as [|[this|id]|id]; unfold handle_line, JSON_parse_line, bind.
  - by repeat split.
  - destruct (JSON_parse line) as [v|]; [|apply same_core_refl]. cbn.
    destruct v as [|b|n|s|l|ms]; cbn; try apply same_core_refl.
    destruct (is_string _ _); [|apply same_core_refl].
    unfold call_ready_listener, bind, JSON_stringify_menu.
    destruct (writeLine_core this (stringify_menu_ref st (conf_menu st)) st)
      as [H _].
    by destruct (writeLine this _ st) as [[r|e] st'].
  - destruct (JSON_parse line) as [v|]; [|apply same_core_refl]. cbn.
    destruct v as [|b|n|s|l|ms]; cbn; try apply same_core_refl.
    destruct (is_string _ _); by repeat split.
  - destruct (JSON_parse line) as [v|]; [|apply same_core_refl]. cbn.
    destruct v as [|b|n|s|l|ms]; cbn; try apply same_core_refl.
    destruct (is_string _ _); by repeat split.
Qed.

Lemma emit_handlers_core (hs : list LineHandler) (line : jsstring) (st : State) :
  same_core st (snd (emit_handlers hs line st)).
Proof.
  revert st. induction hs as [|h hs IH]; intros st; [apply same_core_refl|].
  cbn [emit_handlers]. unfold bind.
  pose proof (handle_line_core h line st) as H.
  destruct (handle_line h line st) as [[[]|e] st']; [|exact H].
  eapply same_core_trans; [exact H|apply IH].
Qed.

Lemma on_line_core (line : jsstring) (st : State) :
  same_core st (exec (on_line line) st).
Proof.
  unfold exec, on_line, emit_line. destruct (closed (_rl st));
    [apply same_core_refl|apply emit_handlers_core].
Qed.

(** The logger of the constructor returns, and calls no listener. *)
Lemma handle_OnLine (line : jsstring) (st : State) :
  handle_line OnLine line st =
  (Ok tt, set_debug_log (fun l => l ++ [LogOnLine line]) st).
Proof. reflexivity. Qed.

(** A line that [JSON.parse] refuses, or the line [null]: the first
    handler that decodes it throws, and no listener of the application
    was called. *)
Lemma emit_handlers_throw (hs : list LineHandler) (line : jsstring)
    (e : Error) (st : State) :
  (JSON_parse line = None /\ e = SyntaxError) \/
  (JSON_parse line = Some JNull /\ e = TypeError_property_of_null) ->
  existsb decodes hs = true ->
  fst (emit_handlers hs line st) = Throw e /\
  app_calls (snd (emit_handlers hs line st)) = app_calls st.
Proof.
  intros Hp. revert st. induction hs as [|h hs IH]; intros st Hd; [done|].
  cbn [emit_handlers]. unfold bind.
  destruct h as [|l|id]; cbn in Hd.
  - rewrite handle_OnLine.
    by destruct (IH (set_debug_log (fun l => l ++ [LogOnLine line]) st) Hd)
      as [-> ->].
  - unfold handle_line, JSON_parse_line, bind.
    by destruct Hp as [[-> ->]|[-> ->]].
  - unfold handle_line, JSON_parse_line, bind.
    by destruct Hp as [[-> ->]|[-> ->]].
Qed.

(** A line without a type that is known: every handler returns, and no
    listener of the application is called. *)
Lemma emit_handlers_unrecognized (hs : list LineHandler) (line : jsstring)
    (st : State) :
  is_unrecognized_line line = true ->
  fst (emit_handlers hs line st) = Ok tt /\
  app_calls (snd (emit_handlers hs line st)) = app_calls st.
Proof.
  unfold is_unrecognized_line. intros Hu. revert st.
  induction hs as [|h hs IH]; intros st; [done|].
  cbn [emit_handlers]. unfold bind.
  assert (exists st', handle_line h line st = (Ok tt, st') /\
                      app_calls st' = app_calls st) as (st' & -> & <-).
  { destruct h as [|l|id];
      unfold handle_line, JSON_parse_line, get_type, bind, ret, throw.
    - by eexists.
    - destruct (JSON_parse line) as [v|]; [|done].
      destruct v as [|b|n|s|l'|ms]; try done; lazy beta iota;
        try by eexists.
      apply andb_true_iff in Hu as [->%negb_true_iff _]. by eexists.
    - destruct (JSON_parse line) as [v|]; [|done].
      destruct v as [|b|n|s|l'|ms]; try done; lazy beta iota;
        try by eexists.
      apply andb_true_iff in Hu as [_ ->%negb_true_iff]. by eexists. }
  apply IH.
Qed.

(** C4, as the code has it. While the interface is open and a handler of
    [onReady] or [onClick] is registered, a line that is not JSON makes
    the dispatch of the line throw the SyntaxError of [JSON.parse], and
    the line [null] makes it throw a TypeError: the handlers catch
    nothing, and no listener of the application is called for the line.
    A line that parses to another value and has no type that is known is
    handled without a throw and without a call of a listener of the
    application. In every case the listeners, the interface and the
    store are after the line as they were before it. *)
Theorem on_line_malformed (st : State) (line : jsstring) :
  (closed (_rl st) = false ->
   existsb decodes (line_listeners (_rl st)) = true ->
   (JSON_parse line = None ->
    fst (on_line line st) = Throw SyntaxError /\
    app_calls (exec (on_line line) st) = app_calls st) /\
   (JSON_parse line = Some JNull ->
    fst (on_line line st) = Throw TypeError_property_of_null /\
    app_calls (exec (on_line line) st) = app_calls st)) /\
  (is_unrecognized_line line = true ->
   fst (on_line line st) = Ok tt /\
   app_calls (exec (on_line line) st) = app_calls st) /\
  same_core st (exec (on_line line) st).
Proof.
  split; [|split].
  - intros Hc Hd. unfold exec, on_line, emit_line. rewrite Hc.
    split; intros Hp; apply emit_handlers_throw; auto.
  - intros Hu. unfold exec, on_line, emit_line.
    destruct (closed (_rl st)); [done|by apply emit_handlers_unrecognized].
  - apply on_line_core.
Qed.

Lemma on_line_malformed_witness :
  fst (on_line cut_line listening) = Throw SyntaxError /\
  fst (on_line (lit "null") listening) = Throw TypeError_property_of_null /\
  fst (on_line (qlit "{'type':'moved'}") listening) = Ok tt.
Proof.
  split; [|split].
  - destruct (on_line_malformed listening cut_line) as ((H & _) & _);
      [reflexivity..|]. by apply H.
  - destruct (on_line_malformed listening (lit "null")) as ((_ & H) & _);
      [reflexivity..|]. by apply H.
  - destruct (on_line_malformed listening (qlit "{'type':'moved'}"))
      as (_ & H & _). by apply H.
Defined.

(** C4, as the claim has it, fails for the line that is cut before its
    end: the dispatch throws, and the listeners of the application that
    come after the handler that threw are not reached. *)
Lemma on_line_cut_line_throws :
  fst (on_line cut_line listening) = Throw SyntaxError /\
  fst (on_line cut_line listening) <> Ok tt.
Proof. split; [reflexivity|]. vm_compute. discriminate. Qed.

(** ** The states a session reaches *)

Lemma set_checked_core (r : ref) (b : bool) (st : State) :
  menus (exec (set_checked r b) st) = menus st /\
  conf_menu (exec (set_checked r b) st) = conf_menu st /\
  _process (exec (set_checked r b) st) = _process st /\
  _rl (exec (set_checked r b) st) = _rl st.
Proof.
  unfold exec, set_checked, bind, get_item, modify.
  by destruct (items st !! r).
Qed.

Lemma step_flags (pf : Platform) (this : ref) (op : Op) (st : State) :
  running (_process (step pf this op st)) =
    (if is_child_exit op then false else running (_process st)) /\
  cp_killed (_process (step pf this op st)) =
    (match op with
     | CallKill _ => cp_killed (_process st) || running (_process st)
     | _ => cp_killed (_process st)
     end).
Proof.
  destruct op as [r c|id|id|id|line|a|b|line|]; cbn [step is_child_exit].
  - by destruct (set_checked_core r c st) as (_&_&->&_).
  - done.
  - done.
  - done.
  - unfold exec. by destruct (writeLine_core this line st) as [(_&_&_&->&_) _].
  - unfold exec.
    destruct (sendAction_throws pf this a st) as (e & st' & E & Hp & _).
    rewrite E. cbn [snd]. by rewrite Hp.
  - apply kill_flags.
  - by destruct (on_line_core line st) as (_&_&_&->&_).
  - apply child_exit_flags.
Qed.

Lemma killed_after_run (pf : Platform) (this : ref) (ops : list Op) (st : State) :
  killed (run pf this ops st) =
  killed st || (running (_process st) && kill_before_exit ops).
Proof.
  unfold killed, run. revert st.
  induction ops as [|op ops IH]; intros st.
  - cbn. by rewrite andb_false_r, orb_false_r.
  - cbn [fold_left]. rewrite IH.
    destruct (step_flags pf this op st) as [-> ->].
    destruct op; cbn [is_child_exit kill_before_exit];
      destruct (cp_killed (_process st)), (running (_process st));
      by cbn.
Qed.

Lemma constructor_process (pf : Platform) (this : ref)
    (its : gmap ref MenuItem) (ms : gmap ref Menu) (menu : ref)
    (spawned : bool) (st0 : State) :
  new_SysTray pf this its ms menu spawned = (Ok tt, st0) ->
  _process st0 = mkChildProcess spawned false [] [].
Proof.
  unfold new_SysTray, constructor. unfold bind at 1.
  pose proof (update_menu_items_same_session pf
    (conf_menu (spawned_state its ms menu spawned))
    (spawned_state its ms menu spawned)) as (_ & Hp & _).
  destruct (update_menu_items pf _ _) as [[[]|e] st1]; [|done].
  cbn [snd] in Hp. unfold bind, rl_on_line, onReady, bind, rl_on_line,
    modify, ret. intros [= <-]. cbn. by rewrite Hp.
Qed.

(** C8, as the code has it. In every state that a session whose child was
    spawned reaches, [killed] is true exactly when a call of [kill] came
    before the first exit of the child: [killed] says that [kill] has sent
    its signal, whether or not the exit of the child was observed. *)
Theorem killed_iff_signal_sent
    (pf : Platform) (this : ref) (its : gmap ref MenuItem)
    (ms : gmap ref Menu) (menu : ref) (st0 : State) (ops : list Op) :
  new_SysTray pf this its ms menu true = (Ok tt, st0) ->
  killed (run pf this ops st0) = kill_before_exit ops.
Proof.
  intros Hn. rewrite killed_after_run. unfold killed.
  by rewrite (constructor_process _ _ _ _ _ _ _ Hn).
Qed.

Lemma killed_iff_signal_sent_witness :
  killed (run linux this0 [ChildLine ready_line; CallKill true; ChildExit]
              (session_of item_A)) = true /\
  killed (run linux this0 [ChildLine ready_line; ChildExit; CallKill true]
              (session_of item_A)) = false.
Proof.
  split.
  - apply (killed_iff_signal_sent linux this0 {[ item1 := item_A ]}
             {[ menu1 := menu_T ]} menu1 (session_of item_A)
             [ChildLine ready_line; CallKill true; ChildExit]).
    reflexivity.
  - apply (killed_iff_signal_sent linux this0 {[ item1 := item_A ]}
             {[ menu1 := menu_T ]} menu1 (session_of item_A)
             [ChildLine ready_line; ChildExit; CallKill true]).
    reflexivity.
Defined.

(** C8, as the claim has it, fails both ways: when the child exits on its
    own the exit is observed and [killed] is false, and after [kill] the
    signal is sent and [killed] is true before any exit. *)
Lemma killed_is_not_exit_observed :
  (exit_observed [ChildExit] = true /\
   killed (run linux this0 [ChildExit] scenario) = false) /\
  (exit_observed [CallKill false] = false /\
   killed (run linux this0 [CallKill false] scenario) = true).
Proof. by repeat split. Qed.

(** ** The first push of the menu *)

Lemma constructor_listeners (pf : Platform) (this : ref)
    (its : gmap ref MenuItem) (ms : gmap ref Menu) (menu : ref)
    (spawned : bool) (st0 : State) :
  new_SysTray pf this its ms menu spawned = (Ok tt, st0) ->
  _rl st0 = mkReadLine [OnLine; ReadyHandler (Bootstrap this)] false.
Proof.
  unfold new_SysTray, constructor. unfold bind at 1.
  pose proof (update_menu_items_same_session pf
    (conf_menu (spawned_state its ms menu spawned))
    (spawned_state its ms menu spawned)) as (_ & _ & Hrl & _).
  destruct (update_menu_items pf _ _) as [[[]|e] st1]; [|done].
  cbn [snd] in Hrl. unfold bind, rl_on_line, onReady, bind, rl_on_line,
    modify, ret. intros [= <-]. cbn. by rewrite Hrl.
Qed.

Lemma step_listeners (pf : Platform) (this : ref) (op : Op) (st : State) :
  exists more : list LineHandler,
    line_listeners (_rl (step pf this op st)) = line_listeners (_rl st) ++ more.
Proof.
  destruct op as [r c|id|id|id|line|a|b|line|]; cbn [step].
  - exists []. rewrite app_nil_r.
    by destruct (set_checked_core r c st) as (_&_&_&->).
  - by eexists.
  - by eexists.
  - exists []. by rewrite app_nil_r.
  - exists []. rewrite app_nil_r. unfold exec.
    by destruct (writeLine_core this line st) as [(_&_&_&_&->) _].
  - exists []. rewrite app_nil_r. unfold exec.
    destruct (sendAction_throws pf this a st) as (e & st' & E & _ & Hr).
    rewrite E. cbn [snd]. by rewrite Hr.
  - exists []. rewrite app_nil_r.
    unfold exec, kill, bind, onExit, rl_close, process_kill, modify, ret.
    destruct b; cbn; by destruct (running (_process st)).
  - exists []. rewrite app_nil_r.
    by destruct (on_line_core line st) as (_&_&_&_&->).
  - exists []. rewrite app_nil_r. unfold exec, child_exit.
    destruct (running (_process st)); [|done]. unfold bind, modify.
    destruct (emit_exit_spec (exit_listeners (_process st))
      (set_process (fun c => mkChildProcess false (cp_killed c)
                               (exit_listeners c) (stdin c)) st))
      as (H1 & (_ & _ & _ & _ & H2) & _).
    destruct (emit_exit _ _) as [r st']. cbn in *. subst r. cbn.
    by rewrite H2.
Qed.

Lemma run_listeners (pf : Platform) (this : ref) (ops : list Op) (st : State) :
  exists more : list LineHandler,
    line_listeners (_rl (run pf this ops st)) = line_listeners (_rl st) ++ more.
Proof.
  unfold run. revert st. induction ops as [|op ops IH]; intros st.
  - exists []. by rewrite app_nil_r.
  - cbn [fold_left]. destruct (IH (step pf this op st)) as [m2 ->].
    destruct (step_listeners pf this op st) as [m1 ->].
    exists (m1 ++ m2). by rewrite app_assoc.
Qed.

Lemma stringify_menu_ref_nonempty (st : State) (r : ref) :
  exists (c : N) (l : jsstring), stringify_menu_ref st r = c :: l.
Proof.
  unfold stringify_menu_ref. destruct (menus st !! r); by do 2 eexists.
Qed.








(** * More of the file *)

(** ** Locating the binary *)

Lemma getWindowsBinaryName_unsupported (arch : jsstring) :
  arch <> lit "ia32" -> arch <> lit "x64" ->
  getWindowsBinaryName arch = inl ArchitectureNotSupported.
Proof.
  intros H1 H2. unfold getWindowsBinaryName, jsstring_eqb.
  by rewrite !bool_decide_eq_false_2.
Qed.

(** X1. On every platform, also the two that do not use the Windows name,
    an architecture other than ia32 and x64 makes [getTrayBinPath] throw
    the error of [getWindowsBinaryName], whatever exists on the disk, and
    nothing is copied. *)
Theorem getTrayBinPath_architecture
    (arch : jsstring) (platform : Platform)
    (dirname cwd homedir version : jsstring)
    (resolve join : list jsstring -> jsstring)
    (debug : option bool) (copyDir : option CopyDir) (fs : gset (list N)) :
  arch <> lit "ia32" -> arch <> lit "x64" ->
  getTrayBinPath arch platform dirname cwd homedir version resolve join
                 debug copyDir fs
  = (inl ArchitectureNotSupported, fs).
Proof.
  intros H1 H2. unfold getTrayBinPath, getBinaryPath, binName_of.
  by rewrite getWindowsBinaryName_unsupported.
Qed.

Lemma getTrayBinPath_architecture_witness :
  getTrayBinPath (lit "arm64") linux (lit "/app/lib") (lit "/work")
                 (lit "/home/u") (lit "1.0.0") join_plain join_plain
                 None None {[ lit "/app/lib/../traybin/tray_linux_release" ]}
  = (inl ArchitectureNotSupported,
     {[ lit "/app/lib/../traybin/tray_linux_release" ]}).
Proof.
  apply getTrayBinPath_architecture; intros H; discriminate H.
Defined.

Lemma existsSync_true (fs : gset (list N)) (p : jsstring) :
  existsSync fs p = true <-> p ∈ fs.
Proof. unfold existsSync. apply bool_decide_eq_true. Qed.

Lemma getBinaryPath_exists
    (arch : jsstring) (platform : Platform) (dirname cwd : jsstring)
    (resolve : list jsstring -> jsstring) (debug : bool)
    (fs : gset (list N)) (p : jsstring) :
  getBinaryPath arch platform dirname cwd resolve debug fs = inr p -> p ∈ fs.
Proof.
  unfold getBinaryPath.
  destruct (binName_of arch platform debug) as [e|binName]; [done|].
  destruct (existsSync fs _) eqn:E1.
  - intros [= <-]. by apply existsSync_true.
  - destruct binName as [name|]; [|done].
    destruct (existsSync fs (resolve [cwd; name])) eqn:E2; [|done].
    intros [= <-]. by apply existsSync_true.
Qed.

(** A path that appears does not make [getBinaryPath] fail. *)
Lemma getBinaryPath_more
    (arch : jsstring) (platform : Platform) (dirname cwd : jsstring)
    (resolve : list jsstring -> jsstring) (debug : bool)
    (fs fs' : gset (list N)) (p : jsstring) :
  getBinaryPath arch platform dirname cwd resolve debug fs = inr p ->
  fs ⊆ fs' ->
  exists q : jsstring,
    getBinaryPath arch platform dirname cwd resolve debug fs' = inr q.
Proof.
  unfold getBinaryPath. intros H Hsub.
  destruct (binName_of arch platform debug) as [e|binName]; [done|].
  destruct (existsSync fs' _) eqn:E1'; [by eexists|].
  destruct (existsSync fs _) eqn:E1.
  { apply existsSync_true in E1. apply Hsub in E1.
    apply existsSync_true in E1. congruence. }
  destruct binName as [name|]; [|done].
  destruct (existsSync fs (resolve [cwd; name])) eqn:E2; [|done].
  apply existsSync_true in E2. apply Hsub in E2. apply existsSync_true in E2.
  rewrite E2. by eexists.
Qed.

(** X2. The path that [getTrayBinPath] returns exists when it returns, be
    it the binary that was found or its copy in the cache, and no path
    that existed before the call is missing after it. *)
Theorem getTrayBinPath_exists
    (arch : jsstring) (platform : Platform)
    (dirname cwd homedir version : jsstring)
    (resolve join : list jsstring -> jsstring)
    (debug : option bool) (copyDir : option CopyDir)
    (fs fs' : gset (list N)) (p : jsstring) :
  getTrayBinPath arch platform dirname cwd homedir version resolve join
                 debug copyDir fs = (inr p, fs') ->
  p ∈ fs' /\ fs ⊆ fs'.
Proof.
  unfold getTrayBinPath.
  destruct (getBinaryPath _ _ _ _ _ _ fs) as [e|binPath] eqn:Hb; [done|].
  apply getBinaryPath_exists in Hb.
  destruct (binName_of arch platform _) as [e|binName]; [done|].
  destruct (copyDir_truthy _).
  - destruct binName as [name|]; [|done].
    destruct (existsSync fs _) eqn:E.
    + intros [= <- <-]. by apply existsSync_true in E.
    + intros [= <- <-]. unfold copySync, ensureDirSync. set_solver.
  - by intros [= <- <-].
Qed.

Lemma getTrayBinPath_exists_witness :
  lit "/home/u/.cache/node-systray//1.0.0/tray_linux_release"
    ∈ ({[ lit "/home/u/.cache/node-systray//1.0.0/tray_linux_release" ]}
       ∪ ({[ lit "/home/u/.cache/node-systray//1.0.0" ]}
          ∪ ({[ lit "/work/tray_linux_release" ]} : gset (list N)))) /\
  ({[ lit "/work/tray_linux_release" ]} : gset (list N))
    ⊆ {[ lit "/home/u/.cache/node-systray//1.0.0/tray_linux_release" ]}
       ∪ ({[ lit "/home/u/.cache/node-systray//1.0.0" ]}
          ∪ {[ lit "/work/tray_linux_release" ]}).
Proof.
  apply (getTrayBinPath_exists (lit "x64") linux (lit "/app/lib")
           (lit "/work") (lit "/home/u") (lit "1.0.0") join_plain join_plain
           None (Some (CopyFlag true)) {[ lit "/work/tray_linux_release" ]}).
  reflexivity.
Defined.

(** X3. A second call of [getTrayBinPath] with the same arguments, on the
    disk as the first call left it, returns the same path and changes
    nothing: the copy in the cache is made once and kept. *)
Theorem getTrayBinPath_again
    (arch : jsstring) (platform : Platform)
    (dirname cwd homedir version : jsstring)
    (resolve join : list jsstring -> jsstring)
    (debug : option bool) (copyDir : option CopyDir)
    (fs fs' : gset (list N)) (p : jsstring) :
  getTrayBinPath arch platform dirname cwd homedir version resolve join
                 debug copyDir fs = (inr p, fs') ->
  getTrayBinPath arch platform dirname cwd homedir version resolve join
                 debug copyDir fs' = (inr p, fs').
Proof.
  unfold getTrayBinPath.
  destruct (getBinaryPath _ _ _ _ _ _ fs) as [e|binPath] eqn:Hb; [done|].
  destruct (binName_of arch platform _) as [e|binName]; [done|].
  destruct (copyDir_truthy _).
  - destruct binName as [name|]; [|done].
    destruct (existsSync fs _) eqn:E; intros H; injection H as Hpe Hfs.
    + rewrite <- Hfs, Hb, E. do 2 f_equal. exact Hpe.
    + assert (fs ⊆ fs') as Hsub.
      { rewrite <- Hfs. unfold copySync, ensureDirSync. set_solver. }
      destruct (getBinaryPath_more _ _ _ _ _ _ _ _ _ Hb Hsub) as [q ->].
      assert (forall d : jsstring, d = p -> existsSync fs' d = true) as Hd.
      { intros d <-. apply existsSync_true. rewrite <- Hfs.
        unfold copySync, ensureDirSync. set_solver. }
      erewrite Hd by exact Hpe. do 2 f_equal. exact Hpe.
  - intros [= Hpe Hfs]. rewrite <- Hfs, Hb. by rewrite Hpe.
Qed.

Lemma getTrayBinPath_again_witness :
  getTrayBinPath (lit "x64") linux (lit "/app/lib") (lit "/work")
     (lit "/home/u") (lit "1.0.0") join_plain join_plain
     None (Some (CopyFlag true))
     ({[ lit "/home/u/.cache/node-systray//1.0.0/tray_linux_release" ]}
      ∪ ({[ lit "/home/u/.cache/node-systray//1.0.0" ]}
         ∪ {[ lit "/work/tray_linux_release" ]}))
  = (inr (lit "/home/u/.cache/node-systray//1.0.0/tray_linux_release"),
     {[ lit "/home/u/.cache/node-systray//1.0.0/tray_linux_release" ]}
      ∪ ({[ lit "/home/u/.cache/node-systray//1.0.0" ]}
         ∪ {[ lit "/work/tray_linux_release" ]})).
Proof.
  apply (getTrayBinPath_again (lit "x64") linux (lit "/app/lib")
           (lit "/work") (lit "/home/u") (lit "1.0.0") join_plain join_plain
           None (Some (CopyFlag true)) {[ lit "/work/tray_linux_release" ]}).
  reflexivity.
Defined.

(** X4. On a platform that is none of win32, darwin and linux the name
    of the binary is [undefined]: nothing is ever copied, and
    [getTrayBinPath] never throws the error that no executable was
    located; with a supported architecture it throws the TypeError of
    the path module, unless [copyDir] is falsy and a file of name
    undefined exists in the directory of the binaries, which is then
    returned. *)
Theorem getTrayBinPath_other_platform
    (arch : jsstring) (dirname cwd homedir version : jsstring)
    (resolve join : list jsstring -> jsstring)
    (debug : option bool) (copyDir : option CopyDir) (fs : gset (list N)) :
  snd (getTrayBinPath arch other_platform dirname cwd homedir version
                      resolve join debug copyDir fs) = fs /\
  (fst (getTrayBinPath arch other_platform dirname cwd homedir version
                       resolve join debug copyDir fs)
     = inl ArchitectureNotSupported \/
   fst (getTrayBinPath arch other_platform dirname cwd homedir version
                       resolve join debug copyDir fs)
     = inl PathArgumentNotString \/
   (copyDir_truthy (default (CopyFlag false) copyDir) = false /\
    resolve [dirname ++ lit "/../traybin/undefined"] ∈ fs /\
    fst (getTrayBinPath arch other_platform dirname cwd homedir version
                        resolve join debug copyDir fs)
      = inr (resolve [dirname ++ lit "/../traybin/undefined"]))).
Proof.
  unfold getTrayBinPath, getBinaryPath, binName_of.
  destruct (getWindowsBinaryName arch) as [e|w] eqn:Hw.
  { unfold getWindowsBinaryName in Hw.
    repeat destruct (jsstring_eqb _ _); try done.
    injection Hw as <-. auto. }
  cbn [template].
  destruct (existsSync fs _) eqn:E; [|auto].
  apply existsSync_true in E.
  destruct (copyDir_truthy _); cbn [fst snd]; auto 6.
Qed.

(** X5. On win32 the [debug] flag of the configuration selects nothing:
    the binary that is located, and copied, is the same with and without
    it. *)
Theorem getTrayBinPath_win32_debug
    (arch : jsstring) (dirname cwd homedir version : jsstring)
    (resolve join : list jsstring -> jsstring)
    (debug debug' : option bool) (copyDir : option CopyDir)
    (fs : gset (list N)) :
  getTrayBinPath arch win32 dirname cwd homedir version resolve join
                 debug copyDir fs
  = getTrayBinPath arch win32 dirname cwd homedir version resolve join
                   debug' copyDir fs.
Proof.
  unfold getTrayBinPath, getBinaryPath, binName_of.
  by destruct (getWindowsBinaryName arch).
Qed.

(** ** The rule and the store *)

Lemma updateCheckedInLinux_rendered (st : State) (r : ref) (it : MenuItem) :
  items st !! r = Some it ->
  updateCheckedInLinux linux r st =
  (Ok r, set_items (insert r (rendered it)) st).
Proof.
  intros Hr. unfold rendered. destruct (checked it) eqn:Hc.
  - by apply updateCheckedInLinux_checked.
  - rewrite RegExp_strip, or_empty_id. by apply updateCheckedInLinux_unchecked.
Qed.

Lemma replace_trailing_space_mark (t : jsstring) :
  replace strip_regex (t ++ [32; check_mark]) [] = t.
Proof.
  induction t as [|c t IH]; [reflexivity|].
  cbn [app replace]. rewrite rmatch_strip_regex_None.
  - by rewrite IH.
  - intros [= _ Ht]. apply (f_equal length) in Ht.
    rewrite length_app in Ht. cbn in Ht. lia.
Qed.

Lemma replace_no_trailing_space_mark (s : jsstring) :
  (forall t : jsstring, s <> t ++ [32; check_mark]) ->
  replace strip_regex s [] = s.
Proof.
  induction s as [|c s IH]; intros Hs; [reflexivity|].
  cbn [replace]. rewrite rmatch_strip_regex_None.
  - f_equal. apply IH. intros t ->. by apply (Hs (c :: t)).
  - intros E. by apply (Hs []).
Qed.

(** X6. On the checkbox-emulating platform the rule takes from the title
    of an unchecked item a space and a check mark that end it, be they
    of the application or not, and leaves every other title of an
    unchecked item as it is, the marker with its parentheses too. *)
Theorem updateCheckedInLinux_unchecked_title
    (st : State) (r : ref) (it : MenuItem) :
  items st !! r = Some it -> checked it = false ->
  (forall t : jsstring, title it = t ++ [32; check_mark] ->
     items (exec (updateCheckedInLinux linux r) st) !! r
       = Some (with_title it t)) /\
  ((forall t : jsstring, title it <> t ++ [32; check_mark]) ->
     exec (updateCheckedInLinux linux r) st = st).
Proof.
  intros Hr Hc. unfold exec.
  rewrite (updateCheckedInLinux_unchecked st r it Hr Hc). cbn [snd]. split.
  - intros t Ht. rewrite items_set_items, lookup_insert_eq, Ht.
    by rewrite replace_trailing_space_mark.
  - intros Hn. rewrite replace_no_trailing_space_mark by done.
    rewrite with_title_same. by apply set_items_insert_same.
Qed.

Lemma updateCheckedInLinux_unchecked_title_witness :
  items (exec (updateCheckedInLinux linux item1)
              (store_of (mkMenuItem (lit "Done " ++ [check_mark]) [] false true)))
        !! item1
  = Some (mkMenuItem (lit "Done") [] false true).
Proof.
  destruct (updateCheckedInLinux_unchecked_title
    (store_of (mkMenuItem (lit "Done " ++ [check_mark]) [] false true))
    item1 (mkMenuItem (lit "Done " ++ [check_mark]) [] false true))
    as [H _]; [reflexivity..|].
  by apply (H (lit "Done")).
Defined.

Lemma rendered_checked (it : MenuItem) :
  checked it = true -> rendered it = with_title it (title it ++ CHECK_STR).
Proof. intros Hc. unfold rendered. by rewrite Hc. Qed.

Lemma rendered_fields (it : MenuItem) :
  tooltip (rendered it) = tooltip it /\ checked (rendered it) = checked it /\
  enabled (rendered it) = enabled it.
Proof. by destruct it. Qed.

(** [map] over a list of items that are in the store: the list is
    returned as it is, and every item was rendered once for each of its
    occurrences in the list. *)
Lemma mapM_rendered (l : list ref) (st : State) :
  Forall (fun r => is_Some (items st !! r)) l ->
  exists st' : State,
    mapM (updateCheckedInLinux linux) l st = (Ok l, st') /\
    menus st' = menus st /\ same_session st st' /\
    forall r : ref,
      items st' !! r = Nat.iter (occurrences r l) rendered <$> items st !! r.
Proof.
  revert st. induction l as [|x l IH]; intros st Hl.
  - exists st. repeat split; try done. intros r. cbn.
    by destruct (items st !! r).
  - apply Forall_cons in Hl as [[it Hx] Hl].
    cbn [mapM]. unfold bind at 1.
    rewrite (updateCheckedInLinux_rendered st x it Hx).
    destruct (IH (set_items (insert x (rendered it)) st)) as (st' & E & Hm & Hs & Hi).
    { eapply Forall_impl; [exact Hl|]. intros r [y Hy]. cbn.
      destruct (decide (x = r)) as [->|Hne].
      - rewrite lookup_insert_eq. by eexists.
      - rewrite lookup_insert_ne by done. by eexists. }
    unfold bind at 1. rewrite E. exists st'. split; [done|].
    split; [by rewrite Hm|]. split.
    { eapply same_session_trans; [|exact Hs]. by repeat split. }
    intros r. rewrite Hi. cbn [items set_items]. unfold occurrences.
    cbn [count_occ]. destruct (Pos.eq_dec x r) as [->|Hne].
    + rewrite lookup_insert_eq, Hx. cbn [fmap option_fmap option_map].
      f_equal. symmetry. apply Nat.iter_succ_r.
    + by rewrite lookup_insert_ne.
Qed.

Lemma update_menu_items_rendered (m : ref) (mn : Menu) (st : State) :
  menus st !! m = Some mn ->
  Forall (fun r => is_Some (items st !! r)) (menu_items mn) ->
  exists st' : State,
    update_menu_items linux m st = (Ok tt, st') /\
    menus st' = menus st /\ same_session st st' /\
    forall r : ref,
      items st' !! r =
      Nat.iter (occurrences r (menu_items mn)) rendered <$> items st !! r.
Proof.
  intros Hm Hl. unfold update_menu_items, bind at 1, get_menu. rewrite Hm.
  destruct (mapM_rendered (menu_items mn) st Hl) as (st' & E & Hms & Hs & Hi).
  unfold bind at 1. rewrite E.
  unfold set_menu_items, bind, get_menu, modify. rewrite Hms, Hm.
  eexists. split; [reflexivity|]. cbn [menus items set_menus].
  split; [|split; [|done]].
  - rewrite Hms. destruct mn. by apply insert_id.
  - eapply same_session_trans; [exact Hs|]. by repeat split.
Qed.

Lemma occurrences_app (r : ref) (l1 l2 : list ref) :
  occurrences r (l1 ++ l2) = (occurrences r l1 + occurrences r l2)%nat.
Proof. apply count_occ_app. Qed.

Lemma iter_rendered_present (n : nat) (o : option MenuItem) :
  is_Some o -> is_Some (Nat.iter n rendered <$> o).
Proof. intros [x ->]. by eexists. Qed.

Lemma sendAction_rendered
    (this : ref) (a : Action) (l : list ref) (st : State) :
  applications st a = Some l ->
  Forall (fun r => is_Some (items st !! r)) l ->
  exists st' : State,
    sendAction linux this a st = (Throw TypeError_not_a_function, st') /\
    menus st' = menus st /\
    forall r : ref,
      items st' !! r = Nat.iter (occurrences r l) rendered <$> items st !! r.
Proof.
  intros Ha Hl. unfold sendAction. unfold bind at 1.
  destruct a as [i sq|m sq|m i sq]; cbn [applications] in Ha.
  - injection Ha as <-. apply Forall_cons in Hl as [[it Hi] _].
    unfold bind at 1. rewrite (updateCheckedInLinux_rendered st i it Hi).
    unfold ret at 1, bind at 1, debug at 1, bind at 1,
      JSON_stringify_action at 1.
    destruct (stringify_action_nonempty
      (set_debug_log (fun lg => lg ++ [LogSendAction (UpdateItem i sq)])
         (set_items (insert i (rendered it)) st)) (UpdateItem i sq))
      as [rest ->].
    unfold bind. rewrite writeLine_nonempty. eexists. split; [reflexivity|].
    cbn [menus items set_debug_log set_items]. split; [done|]. intros r.
    unfold occurrences. cbn [count_occ].
    destruct (Pos.eq_dec i r) as [->|Hne].
    + by rewrite lookup_insert_eq, Hi.
    + rewrite lookup_insert_ne by done. cbn. by destruct (items st !! r).
  - destruct (menus st !! m) as [mn|] eqn:Hm; [|done]. injection Ha as <-.
    unfold bind at 1.
    destruct (update_menu_items_rendered m mn st Hm Hl)
      as (st' & -> & Hms & Hs & Hi).
    unfold ret at 1, bind at 1, debug at 1, bind at 1,
      JSON_stringify_action at 1.
    destruct (stringify_action_nonempty
      (set_debug_log (fun lg => lg ++ [LogSendAction (UpdateMenu m sq)]) st')
      (UpdateMenu m sq)) as [rest ->].
    unfold bind. rewrite writeLine_nonempty. eexists. split; [reflexivity|].
    by cbn.
  - destruct (menus st !! m) as [mn|] eqn:Hm; [|done]. injection Ha as <-.
    apply Forall_app in Hl as [Hl Hi']. apply Forall_cons in Hi' as [Hi' _].
    unfold bind at 1.
    destruct (update_menu_items_rendered m mn st Hm Hl)
      as (st' & -> & Hms & Hs & Hi).
    unfold bind at 1.
    destruct (iter_rendered_present (occurrences i (menu_items mn)) _ Hi')
      as [it' Hit']. rewrite <- Hi in Hit'.
    rewrite (updateCheckedInLinux_rendered st' i it' Hit').
    unfold ret at 1, bind at 1, debug at 1, bind at 1,
      JSON_stringify_action at 1.
    destruct (stringify_action_nonempty
      (set_debug_log
         (fun lg => lg ++ [LogSendAction (UpdateMenuAndItem m i sq)])
         (set_items (insert i (rendered it')) st'))
      (UpdateMenuAndItem m i sq)) as [rest ->].
    unfold bind. rewrite writeLine_nonempty. eexists. split; [reflexivity|].
    cbn [menus items set_debug_log set_items]. split; [done|]. intros r.
    rewrite occurrences_app. unfold occurrences at 2. cbn [count_occ].
    destruct (Pos.eq_dec i r) as [->|Hne].
    + rewrite lookup_insert_eq. rewrite Hi in Hit'.
      destruct (items st !! r) as [it|]; [|done].
      cbn [fmap option_fmap option_map] in *.
      injection Hit' as <-. by rewrite Nat.add_1_r.
    + rewrite lookup_insert_ne by done. by rewrite Hi, Nat.add_0_r.
Qed.

(** X7. On the checkbox-emulating platform [sendAction] renders every
    item of the store once for each of its occurrences among the items of
    the menu and the item of the action: an item that the action holds
    twice, as the item of an update-menu-and-item action that is also in
    its menu, is rendered twice, and an item that the action does not
    hold is left as it is. The menu objects are left as they are. *)
Theorem sendAction_renders
    (this : ref) (a : Action) (l : list ref) (st : State) :
  applications st a = Some l ->
  Forall (fun r => is_Some (items st !! r)) l ->
  menus (exec (sendAction linux this a) st) = menus st /\
  forall r : ref,
    items (exec (sendAction linux this a) st) !! r =
    Nat.iter (occurrences r l) rendered <$> items st !! r.
Proof.
  intros Ha Hl.
  destruct (sendAction_rendered this a l st Ha Hl) as (st' & E & Hm & Hi).
  unfold exec. by rewrite E.
Qed.

Lemma sendAction_renders_witness :
  items (exec (sendAction linux this0 (UpdateMenuAndItem menu1 item1 7))
              (session_of item_B)) !! item1
  = Nat.iter 2 rendered <$> items (session_of item_B) !! item1.
Proof.
  destruct (sendAction_renders this0 (UpdateMenuAndItem menu1 item1 7)
              [item1; item1] (session_of item_B)) as [_ H].
  - reflexivity.
  - repeat constructor; by eexists.
  - apply (H item1).
Defined.

(** ** The constructor *)

Lemma new_SysTray_rendered
    (this : ref) (its : gmap ref MenuItem) (ms : gmap ref Menu)
    (menu : ref) (mn : Menu) (spawned : bool) :
  ms !! menu = Some mn ->
  Forall (fun r => is_Some (its !! r)) (menu_items mn) ->
  exists st0 : State,
    new_SysTray linux this its ms menu spawned = (Ok tt, st0) /\
    (forall r : ref,
       items st0 !! r =
       Nat.iter (occurrences r (menu_items mn)) rendered <$> its !! r) /\
    menus st0 = ms.
Proof.
  intros Hm Hl. unfold new_SysTray, constructor. unfold bind at 1.
  destruct (update_menu_items_rendered menu mn
              (spawned_state its ms menu spawned) Hm Hl)
    as (st' & E & Hms & _ & Hi).
  cbn [conf_menu spawned_state] in *. rewrite E.
  unfold bind, rl_on_line, onReady, bind, rl_on_line, modify, ret.
  eexists. split; [reflexivity|]. by cbn.
Qed.

(** X8. On the checkbox-emulating platform the constructor renders every
    item of the store once for each of its occurrences in the menu of
    the configuration, leaves the menu objects as they are, registers the
    logger and its own [ready] listener and no other, and neither logs
    nor writes anything. *)
Theorem new_SysTray_renders
    (this : ref) (its : gmap ref MenuItem) (ms : gmap ref Menu)
    (menu : ref) (mn : Menu) (spawned : bool) :
  ms !! menu = Some mn ->
  Forall (fun r => is_Some (its !! r)) (menu_items mn) ->
  exists st0 : State,
    new_SysTray linux this its ms menu spawned = (Ok tt, st0) /\
    (forall r : ref,
       items st0 !! r =
       Nat.iter (occurrences r (menu_items mn)) rendered <$> its !! r) /\
    menus st0 = ms /\
    _rl st0 = mkReadLine [OnLine; ReadyHandler (Bootstrap this)] false /\
    _process st0 = mkChildProcess spawned false [] [] /\
    debug_log st0 = [] /\ app_calls st0 = [].
Proof.
  intros Hm Hl. unfold new_SysTray, constructor. unfold bind at 1.
  destruct (update_menu_items_rendered menu mn
              (spawned_state its ms menu spawned) Hm Hl)
    as (st' & E & Hms & (Hc & Hp & Hr & Hd & Ha & Hn) & Hi).
  cbn [conf_menu spawned_state] in *. rewrite E.
  unfold bind, rl_on_line, onReady, bind, rl_on_line, modify, ret.
  eexists. split; [reflexivity|]. cbn. rewrite Hr. by repeat split.
Qed.

Lemma new_SysTray_renders_witness :
  exists st0 : State,
    new_SysTray linux this0 {[ item1 := item_B ]} {[ menu1 := menu_T ]}
                menu1 true = (Ok tt, st0) /\
    items st0 !! item1 = Some (rendered item_B).
Proof.
  destruct (new_SysTray_renders this0 {[ item1 := item_B ]}
              {[ menu1 := menu_T ]} menu1 menu_T true)
    as (st0 & E & Hi & _).
  - reflexivity.
  - repeat constructor. by eexists.
  - exists st0. split; [exact E|]. by rewrite (Hi item1).
Defined.

Lemma updateCheckedInLinux_throws (pf : Platform) (r : ref) (e : Error)
    (st st' : State) :
  updateCheckedInLinux pf r st = (Throw e, st') ->
  e = TypeError_property_of_null /\ st' = st.
Proof.
  destruct (is_linux pf) eqn:Hp.
  - apply is_linux_true in Hp as ->.
    destruct (items st !! r) as [it|] eqn:Hr.
    + by rewrite (updateCheckedInLinux_rendered st r it Hr).
    + rewrite updateCheckedInLinux_null by done. by intros [= <- <-].
  - by rewrite updateCheckedInLinux_other.
Qed.

Lemma mapM_throws (pf : Platform) (l : list ref) (e : Error) (st st' : State) :
  mapM (updateCheckedInLinux pf) l st = (Throw e, st') ->
  e = TypeError_property_of_null.
Proof.
  revert st. induction l as [|x l IH]; intros st; [done|].
  cbn [mapM]. unfold bind at 1.
  destruct (updateCheckedInLinux pf x st) as [[y|e1] st1] eqn:E1.
  - unfold bind at 1.
    destruct (mapM (updateCheckedInLinux pf) l st1) as [[ys|e2] st2] eqn:E2;
      [done|]. intros [= <- <-]. by eapply IH.
  - intros [= <- <-]. by apply updateCheckedInLinux_throws in E1 as [-> _].
Qed.

(** X9. When the constructor throws, it throws the TypeError of a
    property read on [null], the menu or one of its items, and it
    throws after the child was spawned: the child process is as [spawn]
    left it, and no listener is registered, on it or on its lines. *)
Theorem new_SysTray_throws
    (pf : Platform) (this : ref) (its : gmap ref MenuItem)
    (ms : gmap ref Menu) (menu : ref) (spawned : bool)
    (e : Error) (st : State) :
  new_SysTray pf this its ms menu spawned = (Throw e, st) ->
  e = TypeError_property_of_null /\
  _process st = mkChildProcess spawned false [] [] /\
  _rl st = mkReadLine [] false.
Proof.
  unfold new_SysTray, constructor. unfold bind at 1.
  pose proof (update_menu_items_same_session pf
    (conf_menu (spawned_state its ms menu spawned))
    (spawned_state its ms menu spawned)) as (_ & Hp & Hr & _).
  destruct (update_menu_items pf _ _) as [[[]|e1] st1] eqn:E; [done|].
  intros [= <- <-]. cbn [snd] in *. split; [|by rewrite Hp, Hr].
  revert E. unfold update_menu_items, bind at 1, get_menu.
  cbn [conf_menu spawned_state menus].
  destruct (ms !! menu) as [mn|]; [|by intros [= <- _]].
  unfold bind at 1.
  destruct (mapM (updateCheckedInLinux pf) (menu_items mn) _)
    as [[ys|e2] st2] eqn:E2.
  - unfold set_menu_items, bind, get_menu, modify.
    destruct (menus st2 !! menu); [done|by intros [= <- _]].
  - intros [= <- _]. by eapply mapM_throws.
Qed.

Lemma new_SysTray_throws_witness :
  _process (snd (new_SysTray linux this0 {[ item1 := item_B ]}
                             {[ menu1 := mkMenu [] [] [] [item1; item3] ]}
                             menu1 true))
  = mkChildProcess true false [] [].
Proof.
  eapply (new_SysTray_throws linux this0 {[ item1 := item_B ]}
            {[ menu1 := mkMenu [] [] [] [item1; item3] ]} menu1 true).
  reflexivity.
Defined.

Lemma sendAction_tail (this : ref) (a : Action) (st : State) :
  exists st' : State,
    (debug (LogSendAction a) ;;;
     let* text := JSON_stringify_action a in
     writeLine this text ;;; ret this) st
    = (Throw TypeError_not_a_function, st') /\
    items st' = items st /\ menus st' = menus st.
Proof.
  unfold bind, debug, JSON_stringify_action.
  destruct (stringify_action_nonempty
    (set_debug_log (fun l => l ++ [LogSendAction a]) st) a) as [rest ->].
  rewrite writeLine_nonempty. by eexists.
Qed.

Lemma mapM_other_platform (pf : Platform) (l : list ref) (st : State) :
  is_linux pf = false -> mapM (updateCheckedInLinux pf) l st = (Ok l, st).
Proof.
  intros Hp. induction l as [|x l IH]; [done|]. cbn [mapM]. unfold bind.
  by rewrite updateCheckedInLinux_other, IH.
Qed.

Lemma update_menu_items_other_platform (pf : Platform) (m : ref) (st : State) :
  is_linux pf = false ->
  exists (r : Result unit) (st' : State),
    update_menu_items pf m st = (r, st') /\
    items st' = items st /\ menus st' = menus st.
Proof.
  intros Hp. unfold update_menu_items, bind, get_menu.
  destruct (menus st !! m) as [mn|] eqn:Hm; [|by do 2 eexists].
  rewrite mapM_other_platform by done.
  unfold set_menu_items, bind, get_menu, modify. rewrite Hm.
  do 2 eexists. split; [reflexivity|]. cbn. split; [done|].
  destruct mn. by apply insert_id.
Qed.

Lemma sendAction_other_platform_eq
    (pf : Platform) (this : ref) (a : Action) (st : State) :
  is_linux pf = false ->
  exists (e : Error) (st' : State),
    sendAction pf this a st = (Throw e, st') /\
    items st' = items st /\ menus st' = menus st.
Proof.
  intros Hp. unfold sendAction. unfold bind at 1.
  destruct a as [i sq|m sq|m i sq].
  - unfold bind at 1. rewrite updateCheckedInLinux_other by done.
    unfold ret at 1.
    destruct (sendAction_tail this (UpdateItem i sq) st) as (s2 & -> & H).
    by do 2 eexists.
  - unfold bind at 1.
    destruct (update_menu_items_other_platform pf m st Hp)
      as (r & s1 & -> & Hi & Hm).
    destruct r as [[]|e]; [|by do 2 eexists].
    unfold ret at 1.
    destruct (sendAction_tail this (UpdateMenu m sq) s1)
      as (s2 & -> & Hi2 & Hm2).
    do 2 eexists. split; [reflexivity|]. by rewrite Hi2, Hm2.
  - unfold bind at 1.
    destruct (update_menu_items_other_platform pf m st Hp)
      as (r & s1 & -> & Hi & Hm).
    destruct r as [[]|e]; [|by do 2 eexists].
    unfold bind at 1. rewrite updateCheckedInLinux_other by done.
    unfold ret at 1.
    destruct (sendAction_tail this (UpdateMenuAndItem m i sq) s1)
      as (s2 & -> & Hi2 & Hm2).
    do 2 eexists. split; [reflexivity|]. by rewrite Hi2, Hm2.
Qed.

(** X10. On a platform other than the checkbox-emulating one,
    [sendAction] changes no item and no menu of the store. *)
Theorem sendAction_other_platform
    (pf : Platform) (this : ref) (a : Action) (st : State) :
  is_linux pf = false ->
  items (exec (sendAction pf this a) st) = items st /\
  menus (exec (sendAction pf this a) st) = menus st.
Proof.
  intros Hp.
  destruct (sendAction_other_platform_eq pf this a st Hp)
    as (e & st' & E & H).
  unfold exec. by rewrite E.
Qed.

Lemma sendAction_other_platform_witness :
  items (exec (sendAction darwin this0 (UpdateMenuAndItem menu1 item1 7))
              (session_of item_B)) = items (session_of item_B).
Proof.
  by apply (sendAction_other_platform darwin this0
              (UpdateMenuAndItem menu1 item1 7) (session_of item_B)).
Defined.

(** ** The dispatch of the lines *)





Lemma on_line_ready_throws (this : ref) (tl : list LineHandler)
    (line : jsstring) (st : State) :
  line_listeners (_rl st) = OnLine :: ReadyHandler (Bootstrap this) :: tl ->
  closed (_rl st) = false ->
  is_ready_line line = true ->
  exists st' : State,
    on_line line st = (Throw TypeError_not_a_function, st') /\
    app_calls st' = app_calls st.
Proof.
  intros Hl Hc Hr. unfold on_line, emit_line. rewrite Hc, Hl.
  cbn [emit_handlers]. unfold bind at 1. rewrite handle_OnLine.
  unfold bind at 1. cbn [handle_line]. unfold JSON_parse_line, bind at 1.
  unfold is_ready_line in Hr.
  destruct (JSON_parse line) as [[|b|n|s|l|ms]|]; try done.
  unfold ret at 1, get_type, bind at 1, ret at 1. rewrite Hr.
  unfold bind at 1, call_ready_listener, bind at 1, bind at 1,
    JSON_stringify_menu.
  destruct (stringify_menu_ref_nonempty
    (set_debug_log (fun l => l ++ [LogOnLine line]) st)
    (conf_menu (set_debug_log (fun l => l ++ [LogOnLine line]) st)))
    as (c & l & ->).
  rewrite writeLine_nonempty. by eexists.
Qed.

(** X12. In a session that was constructed, a [ready] line never reaches
    a listener that the application gave to [onReady], or any other
    listener of the application: the listener of the constructor is
    called before them, and what it throws ends the dispatch of the
    line. *)
Theorem ready_line_calls_no_listener
    (pf : Platform) (this : ref) (its : gmap ref MenuItem)
    (ms : gmap ref Menu) (menu : ref) (spawned : bool) (st0 : State)
    (ops : list Op) (line : jsstring) :
  new_SysTray pf this its ms menu spawned = (Ok tt, st0) ->
  is_ready_line line = true ->
  app_calls (exec (on_line line) (run pf this ops st0)) =
  app_calls (run pf this ops st0).
Proof.
  intros Hn Hr.
  destruct (run_listeners pf this ops st0) as [more Hl].
  rewrite (constructor_listeners _ _ _ _ _ _ _ Hn) in Hl. cbn in Hl.
  destruct (closed (_rl (run pf this ops st0))) eqn:Hc.
  - unfold exec, on_line. by rewrite Hc.
  - destruct (on_line_ready_throws this more line _ Hl Hc Hr)
      as (st' & E & Ha). unfold exec. by rewrite E.
Qed.

Lemma ready_line_calls_no_listener_witness :
  app_calls (exec (on_line ready_line) listening) = app_calls listening.
Proof.
  apply (ready_line_calls_no_listener linux this0 {[ item1 := item_A ]}
           {[ menu1 := menu_T ]} menu1 true (session_of item_A)
           [CallOnReady 1; CallOnClick 2] ready_line); reflexivity.
Defined.

(** ** The session over its operations *)

Lemma sendAction_frame (pf : Platform) (this : ref) (a : Action) (st : State) :
  exists (e : Error) (st' : State),
    sendAction pf this a st = (Throw e, st') /\
    _process st' = _process st /\ _rl st' = _rl st /\
    app_calls st' = app_calls st /\ node_exited st' = node_exited st.
Proof.
  unfold sendAction. unfold bind at 1.
  set (prep := match a with UpdateItem _ _ => _ | _ => _ end).
  assert (same_session st (snd (prep st))) as Hs.
  { subst prep. destruct a as [it sq|mn sq|mn it sq].
    - unfold bind. pose proof (updateCheckedInLinux_same_session pf it st) as H.
      by destruct (updateCheckedInLinux pf it st) as [[y|e] st1].
    - unfold bind. pose proof (update_menu_items_same_session pf mn st) as H.
      by destruct (update_menu_items pf mn st) as [[y|e] st1].
    - unfold bind at 1.
      pose proof (update_menu_items_same_session pf mn st) as H.
      destruct (update_menu_items pf mn st) as [[y|e] st1]; [|exact H].
      unfold bind.
      pose proof (updateCheckedInLinux_same_session pf it st1) as H'.
      destruct (updateCheckedInLinux pf it st1) as [[z|e] st2];
        eapply same_session_trans; [exact H|exact H'|exact H|exact H']. }
  destruct (prep st) as [[a'|e] st1]; cbn [snd] in Hs;
    destruct Hs as (_ & Hp & Hr & _ & Ha & Hn).
  - unfold bind, debug, JSON_stringify_action.
    destruct (stringify_action_nonempty
                (set_debug_log (fun l => l ++ [LogSendAction a']) st1) a')
      as [rest ->].
    rewrite writeLine_nonempty. do 2 eexists. split; [reflexivity|]. by cbn.
  - by do 2 eexists.
Qed.

Lemma handle_line_node_exited (h : LineHandler) (line : jsstring) (st : State) :
  node_exited (snd (handle_line h line st)) = node_exited st.
Proof.
  destruct h as [|[this|id]|id];
    unfold handle_line, JSON_parse_line, bind; try done.
  - destruct (JSON_parse line) as [v|]; [|done]. cbn.
    destruct v as [|b|n|s|l|ms]; cbn; try done.
    destruct (is_string _ _); [|done].
    unfold call_ready_listener, bind, JSON_stringify_menu.
    by destruct (stringify_menu_ref st (conf_menu st)).
  - destruct (JSON_parse line) as [v|]; [|done]. cbn.
    destruct v as [|b|n|s|l|ms]; cbn; try done.
    by destruct (is_string _ _).
  - destruct (JSON_parse line) as [v|]; [|done]. cbn.
    destruct v as [|b|n|s|l|ms]; cbn; try done.
    by destruct (is_string _ _).
Qed.

Lemma on_line_node_exited (line : jsstring) (st : State) :
  node_exited (exec (on_line line) st) = node_exited st.
Proof.
  unfold exec, on_line, emit_line. destruct (closed (_rl st)); [done|].
  generalize (line_listeners (_rl st)) as hs. intros hs. revert st.
  induction hs as [|h hs IH]; intros st; [done|].
  cbn [emit_handlers]. unfold bind.
  pose proof (handle_line_node_exited h line st) as H.
  destruct (handle_line h line st) as [[[]|e] st']; [|exact H].
  cbn [snd] in H. by rewrite IH.
Qed.

Lemma kill_rl (b : bool) (st : State) :
  _rl (exec (kill b) st) = mkReadLine (line_listeners (_rl st)) true.
Proof.
  unfold exec, kill, bind, onExit, rl_close, process_kill, modify, ret.
  destruct b; cbn; by destruct (running (_process st)).
Qed.

Lemma child_exit_frame (st : State) :
  _rl (exec child_exit st) = _rl st /\
  stdin (_process (exec child_exit st)) = stdin (_process st) /\
  exit_listeners (_process (exec child_exit st)) = exit_listeners (_process st).
Proof.
  unfold exec, child_exit. destruct (running (_process st)); [|done].
  unfold bind, modify.
  destruct (emit_exit_spec (exit_listeners (_process st))
    (set_process (fun c => mkChildProcess false (cp_killed c)
                             (exit_listeners c) (stdin c)) st))
    as (H1 & (_ & _ & _ & H2 & H3) & _).
  destruct (emit_exit _ _) as [r st']. cbn in *. subst r. cbn.
  by rewrite H2, H3.
Qed.

Lemma step_rl (pf : Platform) (this : ref) (op : Op) (st : State) :
  _rl (step pf this op st) = rl_after op (_rl st).
Proof.
  destruct op as [r c|id|id|id|line|a|b|line|];
    cbn [step rl_after registered flat_map]; rewrite ?app_nil_r.
  - destruct (set_checked_core r c st) as (_&_&_&->). by destruct (_rl st).
  - done.
  - done.
  - cbn. by destruct (_rl st).
  - unfold exec. destruct (writeLine_core this line st) as [(_&_&_&_&->) _].
    by destruct (_rl st).
  - unfold exec.
    destruct (sendAction_frame pf this a st) as (e & st' & -> & _ & Hr & _).
    cbn [snd]. rewrite Hr. by destruct (_rl st).
  - apply kill_rl.
  - destruct (on_line_core line st) as (_&_&_&_&->). by destruct (_rl st).
  - destruct (child_exit_frame st) as (-> & _). by destruct (_rl st).
Qed.

(** X13. No operation takes a listener of the lines away or changes the
    order of the listeners: after any operations the listeners are those
    there were before, followed by the handlers of the calls of [onReady]
    and [onClick] in the order of the calls; [kill] closes the interface
    and keeps them. *)
Theorem run_registers
    (pf : Platform) (this : ref) (ops : list Op) (st : State) :
  line_listeners (_rl (run pf this ops st)) =
  line_listeners (_rl st) ++ registered ops.
Proof.
  unfold run. revert st. induction ops as [|op ops IH]; intros st.
  - cbn. by rewrite app_nil_r.
  - cbn [fold_left]. rewrite IH, step_rl.
    assert (registered (op :: ops) = registered [op] ++ registered ops) as ->.
    { unfold registered. cbn [flat_map]. by rewrite app_nil_r. }
    rewrite app_assoc. f_equal.
    destruct op; cbn [rl_after line_listeners registered flat_map];
      by rewrite ?app_nil_r.
Qed.

Lemma step_stdin (pf : Platform) (this : ref) (op : Op) (st : State) :
  stdin (_process (step pf this op st)) = stdin (_process st).
Proof.
  destruct op as [r c|id|id|id|line|a|b|line|]; cbn [step].
  - by destruct (set_checked_core r c st) as (_&_&->&_).
  - done.
  - done.
  - done.
  - unfold exec. by destruct (writeLine_core this line st) as [(_&_&_&->&_) _].
  - unfold exec.
    destruct (sendAction_frame pf this a st) as (e & st' & -> & Hp & _).
    cbn [snd]. by rewrite Hp.
  - unfold exec, kill, bind, onExit, rl_close, process_kill, modify, ret.
    destruct b; cbn; by destruct (running (_process st)).
  - by destruct (on_line_core line st) as (_&_&_&->&_).
  - by destruct (child_exit_frame st) as (_ & -> & _).
Qed.

(** X14. In no state that a session reaches was anything written to the
    input stream of the child: neither the menu after a [ready] line nor
    an action of [sendAction] nor a line of [writeLine] reaches it. *)
Theorem stdin_never_written
    (pf : Platform) (this : ref) (its : gmap ref MenuItem)
    (ms : gmap ref Menu) (menu : ref) (spawned : bool) (st0 : State)
    (ops : list Op) :
  new_SysTray pf this its ms menu spawned = (Ok tt, st0) ->
  stdin (_process (run pf this ops st0)) = [].
Proof.
  intros Hn.
  assert (stdin (_process st0) = []) as H0
    by by rewrite (constructor_process _ _ _ _ _ _ _ Hn).
  unfold run. revert H0. generalize st0 as s.
  induction ops as [|op ops IH]; intros s H; [done|].
  cbn [fold_left]. apply IH. by rewrite step_stdin.
Qed.

Lemma stdin_never_written_witness :
  stdin (_process (run linux this0
           [ChildLine ready_line; CallSendAction (UpdateItem item1 7);
            CallWriteLine (lit "abc")] (session_of item_A))) = [].
Proof.
  apply (stdin_never_written linux this0 {[ item1 := item_A ]}
           {[ menu1 := menu_T ]} menu1 true (session_of item_A)).
  reflexivity.
Defined.

(** ** [kill], the exit of the child and the host *)

Lemma step_node_exited (pf : Platform) (this : ref) (op : Op) (st : State) :
  running (_process st) = false ->
  node_exited (step pf this op st) = node_exited st.
Proof.
  intros Hr. destruct op as [r c|id|id|id|line|a|b|line|]; cbn [step].
  - unfold exec, set_checked, bind, get_item, modify.
    by destruct (items st !! r).
  - done.
  - done.
  - done.
  - by destruct line.
  - unfold exec.
    destruct (sendAction_frame pf this a st) as (e & st' & -> & _ & _ & _ & H).
    exact H.
  - unfold exec, kill, bind, onExit, rl_close, process_kill, modify, ret.
    destruct b; cbn; by rewrite Hr.
  - apply on_line_node_exited.
  - unfold exec, child_exit. by rewrite Hr.
Qed.

(** X15. Once the child has exited, or when it was never started, no
    operation ends the host: [kill] with [exitNode] registers its
    listener for an exit that does not come again, and [process.exit] is
    not called. *)
Theorem host_not_exited_after_exit
    (pf : Platform) (this : ref) (ops : list Op) (st : State) :
  running (_process st) = false ->
  node_exited (run pf this ops st) = node_exited st.
Proof.
  unfold run. revert st. induction ops as [|op ops IH]; intros st Hr; [done|].
  cbn [fold_left]. rewrite IH.
  - by apply step_node_exited.
  - destruct (step_flags pf this op st) as [-> _]. by destruct op.
Qed.

Lemma host_not_exited_after_exit_witness :
  node_exited (run linux this0 [CallKill true; ChildExit]
                   (exec child_exit scenario)) = false.
Proof.
  apply (host_not_exited_after_exit linux this0 [CallKill true; ChildExit]
           (exec child_exit scenario)).
  reflexivity.
Defined.





(** ** The constructor and [sendAction] together *)

(** X17. On the checkbox-emulating platform, sending the menu of the
    configuration after the construction renders its items a second
    time: an item that is once in the menu was rendered twice, so that a
    checked one has its title followed by two markers. *)
Theorem constructor_then_update_menu
    (this : ref) (its : gmap ref MenuItem) (ms : gmap ref Menu)
    (menu : ref) (mn : Menu) (spawned : bool) (seq_id : Z) (st0 : State) :
  ms !! menu = Some mn ->
  Forall (fun r => is_Some (its !! r)) (menu_items mn) ->
  new_SysTray linux this its ms menu spawned = (Ok tt, st0) ->
  (forall r : ref,
     items (exec (sendAction linux this (UpdateMenu menu seq_id)) st0) !! r =
     Nat.iter (2 * occurrences r (menu_items mn)) rendered <$> its !! r) /\
  (forall (r : ref) (it : MenuItem),
     its !! r = Some it -> checked it = true ->
     occurrences r (menu_items mn) = 1%nat ->
     title <$> items (exec (sendAction linux this (UpdateMenu menu seq_id)) st0) !! r
     = Some (title it ++ CHECK_STR ++ CHECK_STR)).
Proof.
  intros Hm Hl Hn.
  destruct (new_SysTray_rendered this its ms menu mn spawned Hm Hl)
    as (st & E & Hi & Hms).
  rewrite Hn in E. injection E as <-.
  destruct (sendAction_rendered this (UpdateMenu menu seq_id) (menu_items mn)
              st0) as (st' & E' & _ & Hi').
  { cbn. by rewrite Hms, Hm. }
  { eapply Forall_impl; [exact Hl|]. intros r Hr. cbn. rewrite Hi.
    by apply iter_rendered_present. }
  assert (forall r : ref,
     items (exec (sendAction linux this (UpdateMenu menu seq_id)) st0) !! r =
     Nat.iter (2 * occurrences r (menu_items mn)) rendered <$> its !! r) as H.
  { intros r. unfold exec. rewrite E'. cbn [snd]. rewrite Hi', Hi.
    destruct (its !! r) as [it|]; [|done]. cbn [fmap option_fmap option_map].
    f_equal. rewrite <- Nat.iter_add. f_equal. lia. }
  split; [exact H|]. intros r it Hr Hc Ho. rewrite H, Hr, Ho.
  change (title <$> (Nat.iter (2 * 1) rendered <$> Some it))
    with (Some (title (rendered (rendered it)))).
  rewrite (rendered_checked it Hc).
  rewrite rendered_checked by done. cbn [title with_title].
  by rewrite <- app_assoc.
Qed.

Lemma constructor_then_update_menu_witness :
  title <$> items (exec (sendAction linux this0 (UpdateMenu menu1 7))
                        (session_of item_B)) !! item1
  = Some (lit "B" ++ CHECK_STR ++ CHECK_STR).
Proof.
  destruct (constructor_then_update_menu this0 {[ item1 := item_B ]}
              {[ menu1 := menu_T ]} menu1 menu_T true 7 (session_of item_B))
    as [_ H].
  - reflexivity.
  - repeat constructor. by eexists.
  - reflexivity.
  - apply (H item1 item_B); reflexivity.
Defined.

(** ** A [null] among the items *)

Lemma mapM_app_throw {A B : Type} (f : A -> M B) (l1 l2 : list A) (x : A)
    (ys : list B) (e : Error) (st st1 st2 : State) :
  mapM f l1 st = (Ok ys, st1) -> f x st1 = (Throw e, st2) ->
  mapM f (l1 ++ x :: l2) st = (Throw e, st2).
Proof.
  revert st ys. induction l1 as [|a l1 IH]; intros st ys.
  - cbn [mapM app]. unfold ret. intros [= <- <-] Hx. unfold bind.
    by rewrite Hx.
  - cbn [mapM app]. intros H Hx. revert H. unfold bind at 1.
    destruct (f a st) as [[b|e1] s1] eqn:Ea; [|done].
    unfold bind at 1.
    destruct (mapM f l1 s1) as [[zs|e2] s2] eqn:E; [|done].
    unfold ret. intros [= <- <-].
    unfold bind at 1. rewrite Ea. unfold bind at 1.
    by rewrite (IH _ _ E Hx).
Qed.

(** X18. On the checkbox-emulating platform, when an item of the menu of
    an update-menu action is [null], [sendAction] throws the TypeError of
    the property read on it and logs nothing, after it has rendered the
    items that come before the [null] one in the menu: these stay
    rendered, and the items that come after it are not. *)
Theorem sendAction_null_item
    (this : ref) (menu : ref) (mn : Menu) (seq_id : Z)
    (before after : list ref) (null : ref) (st : State) :
  menus st !! menu = Some mn ->
  menu_items mn = before ++ null :: after ->
  Forall (fun r => is_Some (items st !! r)) before ->
  items st !! null = None ->
  fst (sendAction linux this (UpdateMenu menu seq_id) st)
    = Throw TypeError_property_of_null /\
  debug_log (exec (sendAction linux this (UpdateMenu menu seq_id)) st)
    = debug_log st /\
  forall r : ref,
    items (exec (sendAction linux this (UpdateMenu menu seq_id)) st) !! r =
    Nat.iter (occurrences r before) rendered <$> items st !! r.
Proof.
  intros Hm Hl Hb Hn.
  destruct (mapM_rendered before st Hb) as (st1 & E1 & _ & Hs & Hi).
  assert (items st1 !! null = None) as Hn1 by by rewrite Hi, Hn.
  assert (sendAction linux this (UpdateMenu menu seq_id) st
          = (Throw TypeError_property_of_null, st1)) as E.
  { unfold sendAction, bind at 1, bind at 1, update_menu_items, bind at 1,
      get_menu. rewrite Hm. unfold bind at 1. rewrite Hl.
    by rewrite (mapM_app_throw _ before after null before
                  TypeError_property_of_null st st1 st1 E1
                  (updateCheckedInLinux_null linux st1 null Hn1 eq_refl)). }
  unfold exec. rewrite E. cbn [fst snd]. split; [done|].
  split; [by destruct Hs as (_&_&_&->&_)|exact Hi].
Qed.

Lemma sendAction_null_item_witness :
  fst (sendAction linux this0 (UpdateMenu menu1 7)
         (spawned_state {[ item1 := item_B ]}
            {[ menu1 := mkMenu [] [] [] [item1; item3; item1] ]} menu1 true))
    = Throw TypeError_property_of_null /\
  items (exec (sendAction linux this0 (UpdateMenu menu1 7))
         (spawned_state {[ item1 := item_B ]}
            {[ menu1 := mkMenu [] [] [] [item1; item3; item1] ]} menu1 true))
    !! item1 = Some (rendered item_B).
Proof.
  destruct (sendAction_null_item this0 menu1
              (mkMenu [] [] [] [item1; item3; item1]) 7 [item1] [item1] item3
              (spawned_state {[ item1 := item_B ]}
                 {[ menu1 := mkMenu [] [] [] [item1; item3; item1] ]}
                 menu1 true)) as (H1 & _ & H2).
  - reflexivity.
  - reflexivity.
  - repeat constructor. by eexists.
  - reflexivity.
  - split; [exact H1|]. by rewrite (H2 item1).
Defined.

(** ** The lines that are encoded *)

Lemma hex_digit_printable (d : N) : 32 <= hex_digit d.
Proof. unfold hex_digit. destruct (d <? 10); lia. Qed.

Lemma unicode_escape_printable (c : N) :
  Forall (fun c => 32 <= c) (unicode_escape c).
Proof.
  unfold unicode_escape.
  repeat (apply Forall_cons; split; [first [lia|apply hex_digit_printable]|]).
  apply Forall_nil_2.
Qed.

Lemma escape_unit_printable (c : N) :
  Forall (fun c => 32 <= c) (escape_unit c).
Proof.
  unfold escape_unit.
  repeat (match goal with |- context [if ?b then _ else _] =>
            destruct b eqn:? end);
    try (repeat (apply Forall_cons; split; [lia|]); apply Forall_nil_2).
  - apply unicode_escape_printable.
  - apply Forall_cons. split; [|apply Forall_nil_2].
    apply N.ltb_ge. done.
Qed.

Lemma quote_units_printable (s : jsstring) :
  Forall (fun c => 32 <= c) (quote_units s).
Proof.
  induction s as [|c r IH]; [apply Forall_nil_2|].
  cbn [quote_units]. destruct (is_high_surrogate c) eqn:Hh.
  - destruct r as [|d r']; [apply unicode_escape_printable|].
    destruct (is_low_surrogate d) eqn:Hl.
    + cbn [quote_units] in IH.
      assert (is_high_surrogate d = false) as Hd.
      { unfold is_high_surrogate, is_low_surrogate in *.
        apply andb_true_iff in Hl as [?%N.leb_le ?%N.leb_le].
        apply andb_false_iff. right. apply N.leb_gt. lia. }
      rewrite Hd, Hl in IH. apply Forall_app in IH as [_ IH].
      unfold is_high_surrogate, is_low_surrogate in *.
      apply andb_true_iff in Hh as [?%N.leb_le ?%N.leb_le].
      apply andb_true_iff in Hl as [?%N.leb_le ?%N.leb_le].
      repeat (apply Forall_cons; split; [lia|]). exact IH.
    + apply Forall_app. split; [apply unicode_escape_printable|exact IH].
  - destruct (is_low_surrogate c).
    + apply Forall_app. split; [apply unicode_escape_printable|exact IH].
    + apply Forall_app. split; [apply escape_unit_printable|exact IH].
Qed.

Lemma quote_printable (s : jsstring) : Forall (fun c => 32 <= c) (quote s).
Proof.
  unfold quote. apply Forall_app. split; [repeat constructor; lia|].
  apply Forall_app. split; [apply quote_units_printable|].
  repeat constructor; lia.
Qed.

Lemma uint_units_printable (u : Decimal.uint) :
  Forall (fun c => 32 <= c) (uint_units u).
Proof.
  induction u; cbn [uint_units];
    [apply Forall_nil_2|apply Forall_cons; split; [lia|done]..].
Qed.

Lemma number_units_printable (z : Z) :
  Forall (fun c => 32 <= c) (number_units z).
Proof.
  unfold number_units. destruct (Z.to_int z).
  - apply uint_units_printable.
  - apply Forall_cons. split; [lia|apply uint_units_printable].
Qed.

Lemma bool_units_printable (b : bool) :
  Forall (fun c => 32 <= c) (bool_units b).
Proof. destruct b; cbn; repeat constructor; lia. Qed.

Lemma member_printable (key : String.string) (text : jsstring) :
  Forall (fun c => 32 <= c) text ->
  Forall (fun c => 32 <= c) (member key text).
Proof.
  intros H. unfold member. apply Forall_app. split; [apply quote_printable|].
  apply Forall_cons. split; [lia|exact H].
Qed.

Lemma join_comma_printable (parts : list jsstring) :
  Forall (Forall (fun c => 32 <= c)) parts ->
  Forall (fun c => 32 <= c) (join_comma parts).
Proof.
  induction 1 as [|x parts Hx Hp IH]; [apply Forall_nil_2|].
  cbn [join_comma]. destruct parts as [|y parts]; [exact Hx|].
  apply Forall_app. split; [exact Hx|].
  apply Forall_cons. split; [lia|exact IH].
Qed.

Lemma object_text_printable (members : list jsstring) :
  Forall (Forall (fun c => 32 <= c)) members ->
  Forall (fun c => 32 <= c) (object_text members).
Proof.
  intros H. unfold object_text. apply Forall_cons. split; [lia|].
  apply Forall_app. split; [by apply join_comma_printable|].
  repeat constructor; lia.
Qed.

Lemma stringify_item_ref_printable (st : State) (r : ref) :
  Forall (fun c => 32 <= c) (stringify_item_ref st r).
Proof.
  unfold stringify_item_ref. destruct (items st !! r) as [it|].
  - unfold stringify_item. apply object_text_printable.
    repeat (apply Forall_cons; split;
            [apply member_printable;
             first [apply quote_printable|apply bool_units_printable]|]).
    apply Forall_nil_2.
  - cbn. repeat constructor; lia.
Qed.

Lemma stringify_menu_ref_printable (st : State) (r : ref) :
  Forall (fun c => 32 <= c) (stringify_menu_ref st r).
Proof.
  unfold stringify_menu_ref. destruct (menus st !! r) as [m|].
  - apply object_text_printable.
    repeat (apply Forall_cons; split;
            [apply member_printable; apply quote_printable|]).
    apply Forall_cons. split; [|apply Forall_nil_2].
    apply member_printable. unfold array_text.
    apply Forall_cons. split; [lia|]. apply Forall_app.
    split; [|repeat constructor; lia].
    apply join_comma_printable. apply Forall_map, Forall_forall.
    intros x _. apply stringify_item_ref_printable.
  - cbn. repeat constructor; lia.
Qed.

(** X19. The text of an action that [sendAction] encodes, and the text of
    the menu that the listener of the constructor encodes, hold no
    control character, whatever the titles and tooltips hold: a newline
    in a title is written as an escape, and the only newline of the line
    given to [write] would be the one that [writeLine] appends. *)
Theorem encoded_text_printable (st : State) (a : Action) (menu : ref) :
  Forall (fun c => 32 <= c) (stringify_action st a) /\
  Forall (fun c => 32 <= c) (stringify_menu_ref st menu).
Proof.
  split; [|apply stringify_menu_ref_printable].
  destruct a as [i sq|m sq|m i sq]; cbn [stringify_action];
    apply object_text_printable;
    repeat (apply Forall_cons; split;
            [apply member_printable;
             first [apply quote_printable
                   |apply stringify_item_ref_printable
                   |apply stringify_menu_ref_printable
                   |apply number_units_printable]|]);
    apply Forall_nil_2.
Qed.
